(** * QtAvahiService: the service-registration state machine

    A shallow embedding of [src/qtavahiservice.cpp].  The object's fields
    are a record, every method is a function on a configuration (the object
    together with the state of the outside world), and the Avahi client
    library and the Qt network classes are an interface ([Platform]) that
    the methods call.  The unbounded recursion of [registerService] through
    [handleCollision] is cut by a fuel argument; [None] means the fuel ran
    out.

    Logging ([qCDebug], [qCWarning]) is not modelled, so the [silent] flag
    is carried but changes nothing.  Heap allocation of the TXT string list
    is not modelled either: a pointer is an [option], [nullptr] is [None].
    A [QString] is a [string] whose characters are Latin-1 code points. *)

From Stdlib Require Import ZArith List String Ascii Bool Lia.
From stdpp Require Import base option list strings gmap.

Local Open Scope Z_scope.

(** ** Constants of the Avahi headers *)

Definition AVAHI_OK : Z := 0.
Definition AVAHI_ERR_COLLISION : Z := -8.
Definition AVAHI_IF_UNSPEC : Z := -1.

Inductive AvahiClientState :=
| AVAHI_CLIENT_S_REGISTERING
| AVAHI_CLIENT_S_RUNNING
| AVAHI_CLIENT_S_COLLISION
| AVAHI_CLIENT_FAILURE
| AVAHI_CLIENT_CONNECTING.

Inductive AvahiProtocol := AVAHI_PROTO_INET | AVAHI_PROTO_INET6.

#[global] Instance AvahiClientState_eq_dec : EqDecision AvahiClientState.
Proof. solve_decision. Defined.

#[global] Instance AvahiProtocol_eq_dec : EqDecision AvahiProtocol.
Proof. solve_decision. Defined.

(** Opaque handles of the client library. *)
Record AvahiClient := ClientAt { client_addr : N }.
Record AvahiEntryGroup := GroupAt { group_addr : N }.

#[global] Instance AvahiClient_eq_dec : EqDecision AvahiClient.
Proof. solve_decision. Defined.

#[global] Instance AvahiEntryGroup_eq_dec : EqDecision AvahiEntryGroup.
Proof. solve_decision. Defined.

(** An [AvahiStringList] by its content, one ["key=value"] per element. *)
Definition AvahiStringList := list string.

(** ** Qt value types *)

Definition QString := string.

Inductive NetworkLayerProtocol :=
| IPv4Protocol
| IPv6Protocol
| AnyIPProtocol
| UnknownNetworkLayerProtocol.

#[global] Instance NetworkLayerProtocol_eq_dec : EqDecision NetworkLayerProtocol.
Proof. solve_decision. Defined.

Record QNetworkAddressEntry (A : Type) := {
  ip : A;
  netmask : A
}.
Arguments ip {A} _.
Arguments netmask {A} _.

Record QNetworkInterface (A : Type) := {
  index : Z;
  addressEntries : list (QNetworkAddressEntry A)
}.
Arguments index {A} _.
Arguments addressEntries {A} _.

(** [QString::toLatin1]: the identity on Latin-1 strings. *)
Definition toLatin1 (s : QString) : string := s.

(** [QString::toStdString]: the UTF-8 encoding; a Latin-1 code point from
    128 on takes two bytes. *)
Definition utf8_of_latin1 (c : ascii) : string :=
  let n := N_of_ascii c in
  if (n <? 128)%N then String c EmptyString
  else String (ascii_of_N (192 + n / 64))
         (String (ascii_of_N (128 + n mod 64)) EmptyString).

Fixpoint toStdString (s : QString) : string :=
  match s with
  | EmptyString => EmptyString
  | String c rest => utf8_of_latin1 c +:+ toStdString rest
  end.

(** [.data()] of a [std::string] or [QByteArray], read as a [const char*]:
    the bytes before the first NUL. *)
Fixpoint data (s : string) : string :=
  match s with
  | EmptyString => EmptyString
  | String c rest =>
      if (N_of_ascii c =? 0)%N then EmptyString else String c (data rest)
  end.

(** [QLatin1String(const char* )]: the bytes before the first NUL, each a
    Latin-1 character; a null pointer gives the empty string. *)
Definition QLatin1String (p : option string) : QString :=
  match p with
  | Some s => data s
  | None => EmptyString
  end.

(** Whether every character of a string is from 1 to 127. *)
Fixpoint isAsciiCString (s : string) : bool :=
  match s with
  | EmptyString => true
  | String c rest =>
      negb (N_of_ascii c =? 0)%N && (N_of_ascii c <? 128)%N && isAsciiCString rest
  end.

(** Whether no character of a string is NUL. *)
Fixpoint noNul (s : string) : bool :=
  match s with
  | EmptyString => true
  | String c rest => negb (N_of_ascii c =? 0)%N && noNul rest
  end.

(** The [(uint16_t)] cast. *)
Definition uint16 (z : Z) : Z := z mod 65536.

(** ** The libraries the service calls

    [World] is the state of everything outside the object: the Avahi daemon
    and client library, and the network interfaces of the host.  A call that
    changes it returns the new world. *)

Class Platform := {
  QHostAddress : Type;
  QHostAddress_eq_dec :: EqDecision QHostAddress;
  (* QHostAddress(const QString& ) *)
  QHostAddress_of : QString -> QHostAddress;
  (* QHostAddress() *)
  QHostAddress_null : QHostAddress;
  protocol : QHostAddress -> NetworkLayerProtocol;
  toString : QHostAddress -> QString;
  parseSubnet : QString -> QHostAddress * Z;
  isInSubnet : QHostAddress -> QHostAddress -> Z -> bool;

  World : Type;
  allInterfaces : World -> list (QNetworkInterface QHostAddress);

  avahi_client_get_state : World -> AvahiClient -> AvahiClientState;
  avahi_client_errno : World -> AvahiClient -> Z;
  avahi_strerror : Z -> string;
  avahi_entry_group_new : World -> option AvahiClient -> World * option AvahiEntryGroup;
  avahi_entry_group_is_empty : World -> option AvahiEntryGroup -> bool;
  avahi_entry_group_add_service_strlst :
    World -> option AvahiEntryGroup -> Z -> AvahiProtocol ->
    string -> string -> Z -> option AvahiStringList -> World * Z;
  avahi_entry_group_commit : World -> option AvahiEntryGroup -> World * Z;
  avahi_entry_group_reset : World -> option AvahiEntryGroup -> World;
  avahi_entry_group_update_service_txt_strlst :
    World -> option AvahiEntryGroup -> Z -> AvahiProtocol ->
    string -> string -> option AvahiStringList -> World * Z;
  avahi_alternative_service_name : string -> option string;

  (* QtAvahiServicePrivate::createTxtList, of qtavahiservice_p.cpp *)
  createTxtList : gmap string string -> option AvahiStringList
}.

(** ** The object *)

Inductive QtAvahiServiceState :=
| QtAvahiServiceStateUncommitted
| QtAvahiServiceStateRegistering
| QtAvahiServiceStateEstablished
| QtAvahiServiceStateCollision
| QtAvahiServiceStateFailure.

#[global] Instance QtAvahiServiceState_eq_dec : EqDecision QtAvahiServiceState.
Proof. solve_decision. Defined.

(** A [QTimer]: its settings and, while it is active, the time in
    milliseconds left until it fires. *)
Record QTimer := {
  interval : Z;
  singleShot : bool;
  remaining : option Z
}.

Definition setInterval (msec : Z) (t : QTimer) : QTimer :=
  {| interval := msec; singleShot := singleShot t; remaining := remaining t |}.

Definition setSingleShot (b : bool) (t : QTimer) : QTimer :=
  {| interval := interval t; singleShot := b; remaining := remaining t |}.

(** [QTimer::start()] stops a running timer and starts it again with the
    whole interval. *)
Definition QTimer_start (t : QTimer) : QTimer :=
  {| interval := interval t; singleShot := singleShot t;
     remaining := Some (interval t) |}.

Definition QTimer_stop (t : QTimer) : QTimer :=
  {| interval := interval t; singleShot := singleShot t; remaining := None |}.

Definition isActive (t : QTimer) : bool :=
  match remaining t with Some _ => true | None => false end.

(** What the timer is when its timeout is delivered: a single-shot timer is
    inactive, any other one runs again. *)
Definition QTimer_fired (t : QTimer) : QTimer :=
  if singleShot t then QTimer_stop t else QTimer_start t.

Section Service.

Context `{P : Platform}.

(** [QtAvahiServicePrivate], as the methods use it; [d_client] is
    [d_ptr->client->m_client]. *)
Record QtAvahiServicePrivate := {
  d_client : option AvahiClient;
  d_group : option AvahiEntryGroup;
  d_serviceList : option AvahiStringList;
  d_error : Z;
  d_name : QString;
  d_hostAddress : QHostAddress;
  d_port : Z;
  d_type : QString;
  d_txtRecords : gmap string string
}.

Record QtAvahiService := {
  d_ptr : QtAvahiServicePrivate;
  m_state : QtAvahiServiceState;
  m_name : QString;
  m_hostAddress : QHostAddress;
  m_port : Z;
  m_serviceType : QString;
  m_txtRecords : gmap string string;
  m_reregisterTimer : QTimer
}.

Record Config := {
  self : QtAvahiService;
  world : World
}.

(** *** Field updates *)

Definition with_d (f : QtAvahiServicePrivate -> QtAvahiServicePrivate)
    (c : Config) : Config :=
  let s := self c in
  {| self := {| d_ptr := f (d_ptr s); m_state := m_state s;
                m_name := m_name s; m_hostAddress := m_hostAddress s;
                m_port := m_port s; m_serviceType := m_serviceType s;
                m_txtRecords := m_txtRecords s;
                m_reregisterTimer := m_reregisterTimer s |};
     world := world c |}.

Definition set_world (w : World) (c : Config) : Config :=
  {| self := self c; world := w |}.

Definition set_group (g : option AvahiEntryGroup) : Config -> Config :=
  with_d (fun d =>
    {| d_client := d_client d; d_group := g;
       d_serviceList := d_serviceList d; d_error := d_error d;
       d_name := d_name d; d_hostAddress := d_hostAddress d;
       d_port := d_port d; d_type := d_type d;
       d_txtRecords := d_txtRecords d |}).

Definition set_serviceList (l : option AvahiStringList) : Config -> Config :=
  with_d (fun d =>
    {| d_client := d_client d; d_group := d_group d;
       d_serviceList := l; d_error := d_error d;
       d_name := d_name d; d_hostAddress := d_hostAddress d;
       d_port := d_port d; d_type := d_type d;
       d_txtRecords := d_txtRecords d |}).

Definition set_error (e : Z) : Config -> Config :=
  with_d (fun d =>
    {| d_client := d_client d; d_group := d_group d;
       d_serviceList := d_serviceList d; d_error := e;
       d_name := d_name d; d_hostAddress := d_hostAddress d;
       d_port := d_port d; d_type := d_type d;
       d_txtRecords := d_txtRecords d |}).

Definition set_d_descriptor (name : QString) (hostAddress : QHostAddress)
    (port : Z) (serviceType : QString) (txtRecords : gmap string string)
    : Config -> Config :=
  with_d (fun d =>
    {| d_client := d_client d; d_group := d_group d;
       d_serviceList := d_serviceList d; d_error := d_error d;
       d_name := name; d_hostAddress := hostAddress;
       d_port := port; d_type := serviceType;
       d_txtRecords := txtRecords |}).

Definition set_m_descriptor (name : QString) (hostAddress : QHostAddress)
    (port : Z) (serviceType : QString) (txtRecords : gmap string string)
    (c : Config) : Config :=
  let s := self c in
  {| self := {| d_ptr := d_ptr s; m_state := m_state s;
                m_name := name; m_hostAddress := hostAddress;
                m_port := port; m_serviceType := serviceType;
                m_txtRecords := txtRecords;
                m_reregisterTimer := m_reregisterTimer s |};
     world := world c |}.

Definition set_m_txtRecords (txtRecords : gmap string string)
    (c : Config) : Config :=
  let s := self c in
  {| self := {| d_ptr := d_ptr s; m_state := m_state s;
                m_name := m_name s; m_hostAddress := m_hostAddress s;
                m_port := m_port s; m_serviceType := m_serviceType s;
                m_txtRecords := txtRecords;
                m_reregisterTimer := m_reregisterTimer s |};
     world := world c |}.

Definition set_m_state (st : QtAvahiServiceState) (c : Config) : Config :=
  let s := self c in
  {| self := {| d_ptr := d_ptr s; m_state := st;
                m_name := m_name s; m_hostAddress := m_hostAddress s;
                m_port := m_port s; m_serviceType := m_serviceType s;
                m_txtRecords := m_txtRecords s;
                m_reregisterTimer := m_reregisterTimer s |};
     world := world c |}.

Definition with_timer (f : QTimer -> QTimer) (c : Config) : Config :=
  let s := self c in
  {| self := {| d_ptr := d_ptr s; m_state := m_state s;
                m_name := m_name s; m_hostAddress := m_hostAddress s;
                m_port := m_port s; m_serviceType := m_serviceType s;
                m_txtRecords := m_txtRecords s;
                m_reregisterTimer := f (m_reregisterTimer s) |};
     world := world c |}.

(** *** Accessors *)

Definition hostAddress (c : Config) : QHostAddress := d_hostAddress (d_ptr (self c)).
Definition port (c : Config) : Z := d_port (d_ptr (self c)).
Definition name (c : Config) : QString := d_name (d_ptr (self c)).
Definition serviceType (c : Config) : QString := d_type (d_ptr (self c)).
Definition txtRecords (c : Config) : gmap string string := d_txtRecords (d_ptr (self c)).
Definition state (c : Config) : QtAvahiServiceState := m_state (self c).

Definition group (c : Config) : option AvahiEntryGroup := d_group (d_ptr (self c)).
Definition error (c : Config) : Z := d_error (d_ptr (self c)).
Definition serviceList (c : Config) : option AvahiStringList := d_serviceList (d_ptr (self c)).
Definition timer (c : Config) : QTimer := m_reregisterTimer (self c).

(** *** Views of a configuration *)

(** What no method but [onStateChanged] writes: the cached state, the
    client pointer and the settings of the timer. *)
Definition fixedPart (c : Config) : QtAvahiServiceState * option AvahiClient * Z * bool :=
  (m_state (self c), d_client (d_ptr (self c)), interval (timer c), singleShot (timer c)).

(** The two copies of the values of the last register. *)
Definition cachedValues (c : Config) :=
  (m_name (self c), m_hostAddress (self c), m_port (self c),
   m_serviceType (self c), m_txtRecords (self c)).

Definition privateValues (c : Config) :=
  (name c, hostAddress c, port c, serviceType c, txtRecords c).

(** The members and the private copy hold the same name, address, port and
    type. *)
Definition valuesAgree (c : Config) : Prop :=
  m_name (self c) = name c /\
  m_hostAddress (self c) = hostAddress c /\
  m_port (self c) = port c /\
  m_serviceType (self c) = serviceType c.

(** A running timer comes with a group. *)
Definition timerHasGroup (c : Config) : Prop :=
  isActive (timer c) = true -> group c <> None.

(** *** Choice of the interface

    The two nested [foreach] loops of [registerService] and
    [updateTxtRecord].  The [break] leaves the inner loop only. *)

Definition entryMatches (hostAddress : QHostAddress)
    (addressEntry : QNetworkAddressEntry QHostAddress) : bool :=
  let subnet :=
    parseSubnet (toString (ip addressEntry) +:+ "/" +:+ toString (netmask addressEntry)) in
  isInSubnet hostAddress subnet.1 subnet.2.

Fixpoint scanEntries (hostAddress : QHostAddress)
    (interface : QNetworkInterface QHostAddress)
    (entries : list (QNetworkAddressEntry QHostAddress)) (ifIndex : Z) : Z :=
  match entries with
  | [] => ifIndex
  | addressEntry :: rest =>
      if entryMatches hostAddress addressEntry then index interface
      else scanEntries hostAddress interface rest ifIndex
  end.

Fixpoint scanInterfaces (hostAddress : QHostAddress)
    (interfaces : list (QNetworkInterface QHostAddress)) (ifIndex : Z) : Z :=
  match interfaces with
  | [] => ifIndex
  | interface :: rest =>
      scanInterfaces hostAddress rest
        (scanEntries hostAddress interface (addressEntries interface) ifIndex)
  end.

Definition resolveIfIndex (w : World) (hostAddress : QHostAddress) : Z :=
  if bool_decide (hostAddress ≠ QHostAddress_of "0.0.0.0")
  then scanInterfaces hostAddress (allInterfaces w) AVAHI_IF_UNSPEC
  else AVAHI_IF_UNSPEC.

Definition avahiProtocol (hostAddress : QHostAddress) : AvahiProtocol :=
  if bool_decide (protocol hostAddress = IPv6Protocol)
  then AVAHI_PROTO_INET6 else AVAHI_PROTO_INET.

(** *** Methods *)

(** The test that opens [registerService]. *)
Definition clientRunning (c : Config) : bool :=
  match d_client (d_ptr (self c)) with
  | None => false
  | Some m_client =>
      bool_decide (avahi_client_get_state (world c) m_client = AVAHI_CLIENT_S_RUNNING)
  end.

Definition createGroupIfUnset (c : Config) : Config :=
  match group c with
  | None =>
      let '(w, g) := avahi_entry_group_new (world c) (d_client (d_ptr (self c))) in
      set_group g (set_world w c)
  | Some _ => c
  end.

Definition resetService (silent : bool) (c : Config) : Config :=
  match group c with
  | None => c
  | Some _ =>
      let c := match serviceList c with
               | Some _ => set_serviceList None c
               | None => c
               end in
      let c := set_world (avahi_entry_group_reset (world c) (group c)) c in
      with_timer QTimer_stop c
  end.

Definition alternativeServiceName (n : QString) : QString :=
  QLatin1String (avahi_alternative_service_name (data (toStdString n))).

(** [handleCollision], with the [registerService] it calls as an
    argument. *)
Definition handleCollisionWith
    (registerService : QString -> QHostAddress -> Z -> QString ->
                       gmap string string -> bool -> Config -> option (bool * Config))
    (c : Config) : option (bool * Config) :=
  let alternativeServiceName := alternativeServiceName (name c) in
  let c := resetService false c in
  registerService alternativeServiceName (hostAddress c) (port c)
    (serviceType c) (txtRecords c) false c.

(** The end of [registerService]: commit, then start the timer. *)
Definition commitService (c : Config) : option (bool * Config) :=
  let '(w, err) := avahi_entry_group_commit (world c) (group c) in
  let c := set_error err (set_world w c) in
  if bool_decide (error c ≠ 0) then Some (false, c)
  else Some (true, with_timer QTimer_start c).

(** The start of [registerService], once the client is known to run: both
    copies of the values are written and the group is created if unset. *)
Definition cacheValues (name : QString) (hostAddress : QHostAddress)
    (port : Z) (serviceType : QString) (txtRecords : gmap string string)
    (c : Config) : Config :=
  let c := set_m_descriptor name hostAddress port serviceType txtRecords c in
  let c := set_d_descriptor name hostAddress port serviceType txtRecords c in
  createGroupIfUnset c.

(** The middle of [registerService]: the interface is chosen, the TXT list
    built, the service added, and the result kept in [d_ptr->error]. *)
Definition addService (hostAddress : QHostAddress)
    (txtRecords : gmap string string) (c : Config) : Config :=
  let ifIndex := resolveIfIndex (world c) hostAddress in
  let c := set_serviceList (createTxtList txtRecords) c in
  let '(w, err) :=
    avahi_entry_group_add_service_strlst (world c) (group c) ifIndex
      (avahiProtocol hostAddress)
      (data (toLatin1 (d_name (d_ptr (self c)))))
      (data (toLatin1 (d_type (d_ptr (self c)))))
      (uint16 (d_port (d_ptr (self c))))
      (serviceList c) in
  set_error err (set_world w c).

Fixpoint registerService (fuel : nat) (name : QString) (hostAddress : QHostAddress)
    (port : Z) (serviceType : QString) (txtRecords : gmap string string)
    (silent : bool) (c : Config) : option (bool * Config) :=
  match fuel with
  | O => None
  | S fuel' =>
    if negb (clientRunning c) then Some (false, c)
    else
      let c := cacheValues name hostAddress port serviceType txtRecords c in
      if avahi_entry_group_is_empty (world c) (group c) then
        let c := addService hostAddress txtRecords c in
        if bool_decide (error c ≠ 0) then
          if bool_decide (error c = AVAHI_ERR_COLLISION) then
            match handleCollisionWith (registerService fuel') c with
            | None => None
            | Some (false, c) => Some (false, c)
            | Some (true, c) => commitService c
            end
          else Some (false, c)
        else commitService c
      else Some (false, c)
  end.

Definition handleCollision (fuel : nat) (c : Config) : option (bool * Config) :=
  handleCollisionWith (registerService fuel) c.

Definition updateTxtRecord (txtRecords : gmap string string) (c : Config)
    : bool * Config :=
  match group c with
  | None => (false, c)
  | Some _ =>
      let c := set_m_txtRecords txtRecords c in
      let ifIndex := resolveIfIndex (world c) (d_hostAddress (d_ptr (self c))) in
      let c := set_serviceList (createTxtList txtRecords) c in
      let '(w, err) :=
        avahi_entry_group_update_service_txt_strlst (world c) (group c) ifIndex
          (avahiProtocol (d_hostAddress (d_ptr (self c))))
          (data (toLatin1 (d_name (d_ptr (self c)))))
          (data (toLatin1 (d_type (d_ptr (self c)))))
          (serviceList c) in
      let c := set_error err (set_world w c) in
      if bool_decide (error c ≠ 0) then (false, c) else (true, c)
  end.

Definition isValid (c : Config) : bool :=
  match group c with
  | Some _ => bool_decide (error c = 0)
  | None => false
  end.

Definition errorString (c : Config) : QString :=
  match d_client (d_ptr (self c)) with
  | None => "Invalid client."
  | Some m_client => avahi_strerror (avahi_client_errno (world c) m_client)
  end.

Definition onStateChanged (fuel : nat) (st : QtAvahiServiceState) (c : Config)
    : option Config :=
  if bool_decide (m_state (self c) = st) then Some c
  else
    let c := set_m_state st c in
    match m_state (self c) with
    | QtAvahiServiceStateUncommitted => Some c
    | QtAvahiServiceStateRegistering => Some c
    | QtAvahiServiceStateEstablished => Some c
    | QtAvahiServiceStateCollision => snd <$> handleCollision fuel c
    | QtAvahiServiceStateFailure => Some c
    end.

(** The slot the constructor connects to the timer's [timeout]. *)
Definition onReregisterTimeout (fuel : nat) (c : Config) : option Config :=
  let c := resetService true c in
  snd <$> registerService fuel (m_name (self c)) (m_hostAddress (self c))
            (m_port (self c)) (m_serviceType (self c)) (m_txtRecords (self c))
            true c.

(** *** Construction *)

(** Modelled from the spec: the initial values of [QtAvahiServicePrivate],
    whose constructor is in qtavahiservice_p.cpp; the group is created
    lazily on the first register, and no error is recorded. *)
Definition QtAvahiServicePrivate_new (m_client : option AvahiClient)
    : QtAvahiServicePrivate :=
  {| d_client := m_client; d_group := None; d_serviceList := None;
     d_error := 0; d_name := ""; d_hostAddress := QHostAddress_null;
     d_port := 0; d_type := ""; d_txtRecords := ∅ |}.

(** The constructor; [m_client] and [w] are what [QtAvahiClient::start]
    leaves. *)
Definition QtAvahiService_new (m_client : option AvahiClient) (w : World)
    : Config :=
  {| self :=
       {| d_ptr := QtAvahiServicePrivate_new m_client;
          m_state := QtAvahiServiceStateUncommitted;
          m_name := ""; m_hostAddress := QHostAddress_null; m_port := 0;
          m_serviceType := ""; m_txtRecords := ∅;
          m_reregisterTimer :=
            setSingleShot true
              (setInterval 60000
                 {| interval := 0; singleShot := false; remaining := None |}) |};
     world := w |}.

(** *** Events

    What can happen to a constructed object: a call of a public method, a
    state reported by the group callback, the timeout of the timer, time
    passing, and the outside world changing by itself. *)

Inductive Event :=
| CallRegister (name : QString) (hostAddress : QHostAddress) (port : Z)
    (serviceType : QString) (txtRecords : gmap string string)
| CallReset
| CallUpdateTxt (txtRecords : gmap string string)
| Callback (st : QtAvahiServiceState)
| Timeout
| Elapse (msec : Z)
| Outside (w : World).

Definition deliver (fuel : nat) (e : Event) (c : Config) : option Config :=
  match e with
  | CallRegister name hostAddress port serviceType txtRecords =>
      snd <$> registerService fuel name hostAddress port serviceType txtRecords false c
  | CallReset => Some (resetService false c)
  | CallUpdateTxt txtRecords => Some (updateTxtRecord txtRecords c).2
  | Callback st => onStateChanged fuel st c
  | Timeout =>
      match remaining (timer c) with
      | Some _ => onReregisterTimeout fuel (with_timer QTimer_fired c)
      | None => None
      end
  | Elapse msec =>
      match remaining (timer c) with
      | Some r =>
          if bool_decide (0 <= msec < r)
          then Some (with_timer (fun t =>
                 {| interval := interval t; singleShot := singleShot t;
                    remaining := Some (r - msec) |}) c)
          else None
      | None => if bool_decide (0 <= msec) then Some c else None
      end
  | Outside w => Some (set_world w c)
  end.

Inductive reachable (m_client : option AvahiClient) (w0 : World) : Config -> Prop :=
| reachable_new : reachable m_client w0 (QtAvahiService_new m_client w0)
| reachable_step fuel e c c' :
    reachable m_client w0 c ->
    deliver fuel e c = Some c' ->
    reachable m_client w0 c'.

End Service.

(** ** What the specification asks of the interface choice

    The index of the first interface that has an address entry whose subnet
    contains the address, in the order of [allInterfaces]. *)

Section InterfaceSpec.

Context `{P : Platform}.

Definition interfaceMatches (hostAddress : QHostAddress)
    (interface : QNetworkInterface QHostAddress) : bool :=
  existsb (entryMatches hostAddress) (addressEntries interface).

Fixpoint firstMatchingIndex (hostAddress : QHostAddress)
    (interfaces : list (QNetworkInterface QHostAddress)) : Z :=
  match interfaces with
  | [] => AVAHI_IF_UNSPEC
  | interface :: rest =>
      if interfaceMatches hostAddress interface then index interface
      else firstMatchingIndex hostAddress rest
  end.

Definition specIfIndex (w : World) (hostAddress : QHostAddress) : Z :=
  if bool_decide (hostAddress = QHostAddress_of "0.0.0.0") then AVAHI_IF_UNSPEC
  else firstMatchingIndex hostAddress (allInterfaces w).

End InterfaceSpec.

(** ** A small host and daemon

    An instance of [Platform] to run the methods on: a host with IPv4
    interfaces and a daemon with one entry group.  Adding a service whose
    name another client of the daemon has taken is a collision; a group is
    committed once, and only when it has entries. *)

Module Sim.

(** Error codes that only the daemon gives. *)
Definition AVAHI_ERR_BAD_STATE : Z := -2.
Definition AVAHI_ERR_NOT_FOUND : Z := -30.
Definition AVAHI_ERR_IS_EMPTY : Z := -52.

(** An address is null or an IPv4 address, a 32-bit number. *)
Definition Address := option Z.

Definition digitValue (c : ascii) : option Z :=
  let n := Z.of_N (N_of_ascii c) in
  if (48 <=? n) && (n <=? 57) then Some (n - 48) else None.

Fixpoint parseDigits (s : string) (acc : Z) : option Z :=
  match s with
  | EmptyString => Some acc
  | String c rest =>
      match digitValue c with
      | Some d => parseDigits rest (10 * acc + d)
      | None => None
      end
  end.

Definition parseOctet (s : string) : option Z :=
  match s with
  | EmptyString => None
  | _ =>
      match parseDigits s 0 with
      | Some n => if n <=? 255 then Some n else None
      | None => None
      end
  end.

Fixpoint splitOn (sep : ascii) (s : string) : list string :=
  match s with
  | EmptyString => [EmptyString]
  | String c rest =>
      if bool_decide (c = sep) then EmptyString :: splitOn sep rest
      else match splitOn sep rest with
           | part :: parts => String c part :: parts
           | [] => [String c EmptyString]
           end
  end.

Definition parseIPv4 (s : string) : Address :=
  match splitOn "." s with
  | [a; b; c; d] =>
      match parseOctet a, parseOctet b, parseOctet c, parseOctet d with
      | Some a, Some b, Some c, Some d => Some (((a * 256 + b) * 256 + c) * 256 + d)
      | _, _, _, _ => None
      end
  | _ => None
  end.

Definition digitChar (d : Z) : ascii := ascii_of_N (Z.to_N (48 + d)).

Definition printOctet (n : Z) : string :=
  if n <? 10 then String (digitChar n) EmptyString
  else if n <? 100 then
    String (digitChar (n / 10)) (String (digitChar (n mod 10)) EmptyString)
  else
    String (digitChar (n / 100))
      (String (digitChar (n / 10 mod 10)) (String (digitChar (n mod 10)) EmptyString)).

Definition printIPv4 (a : Address) : string :=
  match a with
  | None => EmptyString
  | Some a =>
      printOctet (a / 16777216 mod 256) +:+ "." +:+
      printOctet (a / 65536 mod 256) +:+ "." +:+
      printOctet (a / 256 mod 256) +:+ "." +:+
      printOctet (a mod 256)
  end.

(** The netmask of a prefix length, and back. *)
Definition maskOfPrefix (p : Z) : Z := 2 ^ 32 - 2 ^ (32 - p).

Definition prefixLength (m : Z) : option Z :=
  find (fun p => maskOfPrefix p =? m) (map Z.of_nat (seq 0 33)).

(** ["a.b.c.d/m.m.m.m"] to the network address and the prefix length; the
    pair of the null address and -1 for anything else. *)
Definition parseSubnet4 (s : string) : Address * Z :=
  match splitOn "/" s with
  | [net; mask] =>
      match parseIPv4 net, parseIPv4 mask with
      | Some a, Some m =>
          match prefixLength m with
          | Some p => (Some (Z.land a (maskOfPrefix p)), p)
          | None => (None, -1)
          end
      | _, _ => (None, -1)
      end
  | _ => (None, -1)
  end.

Definition isInSubnet4 (a subnet : Address) (prefix : Z) : bool :=
  match a, subnet with
  | Some a, Some n =>
      (0 <=? prefix) && (prefix <=? 32) &&
      (Z.shiftr a (32 - prefix) =? Z.shiftr n (32 - prefix))
  | _, _ => false
  end.

(** One entry of the group, as [add_service] received it. *)
Record Entry := {
  e_interface : Z;
  e_protocol : AvahiProtocol;
  e_name : string;
  e_type : string;
  e_port : Z;
  e_txt : option AvahiStringList
}.

Record Daemon := {
  interfaces : list (QNetworkInterface Address);
  running : bool;
  (* names that other clients have registered at the daemon *)
  taken : list string;
  entries : list Entry;
  committed : bool;
  errno : Z
}.

Definition getState (w : Daemon) (_ : AvahiClient) : AvahiClientState :=
  if running w then AVAHI_CLIENT_S_RUNNING else AVAHI_CLIENT_CONNECTING.

Definition fail (e : Z) (w : Daemon) : Daemon * Z :=
  ({| interfaces := interfaces w; running := running w; taken := taken w;
      entries := entries w; committed := committed w; errno := e |}, e).

Definition groupNew (w : Daemon) (_ : option AvahiClient)
    : Daemon * option AvahiEntryGroup :=
  (w, Some (GroupAt 1)).

Definition isEmpty (w : Daemon) (_ : option AvahiEntryGroup) : bool :=
  match entries w with [] => true | _ => false end.

Definition addService (w : Daemon) (_ : option AvahiEntryGroup) (ifIndex : Z)
    (proto : AvahiProtocol) (name type : string) (port : Z)
    (txt : option AvahiStringList) : Daemon * Z :=
  if bool_decide (name ∈ taken w) then fail AVAHI_ERR_COLLISION w
  else
    ({| interfaces := interfaces w; running := running w; taken := taken w;
        entries := entries w ++
          [{| e_interface := ifIndex; e_protocol := proto; e_name := name;
              e_type := type; e_port := port; e_txt := txt |}];
        committed := committed w; errno := errno w |}, AVAHI_OK).

Definition commit (w : Daemon) (_ : option AvahiEntryGroup) : Daemon * Z :=
  if committed w then fail AVAHI_ERR_BAD_STATE w
  else if isEmpty w None then fail AVAHI_ERR_IS_EMPTY w
  else
    ({| interfaces := interfaces w; running := running w; taken := taken w;
        entries := entries w; committed := true; errno := errno w |}, AVAHI_OK).

Definition reset (w : Daemon) (_ : option AvahiEntryGroup) : Daemon :=
  {| interfaces := interfaces w; running := running w; taken := taken w;
     entries := []; committed := false; errno := errno w |}.

Definition sameService (ifIndex : Z) (proto : AvahiProtocol) (name type : string)
    (e : Entry) : bool :=
  bool_decide (e_interface e = ifIndex) && bool_decide (e_protocol e = proto) &&
  bool_decide (e_name e = name) && bool_decide (e_type e = type).

Definition updateTxt (w : Daemon) (_ : option AvahiEntryGroup) (ifIndex : Z)
    (proto : AvahiProtocol) (name type : string)
    (txt : option AvahiStringList) : Daemon * Z :=
  if existsb (sameService ifIndex proto name type) (entries w) then
    ({| interfaces := interfaces w; running := running w; taken := taken w;
        entries :=
          map (fun e =>
                 if sameService ifIndex proto name type e
                 then {| e_interface := e_interface e; e_protocol := e_protocol e;
                         e_name := e_name e; e_type := e_type e;
                         e_port := e_port e; e_txt := txt |}
                 else e) (entries w);
        committed := committed w; errno := errno w |}, AVAHI_OK)
  else fail AVAHI_ERR_NOT_FOUND w.

Definition strerror (e : Z) : string :=
  if e =? AVAHI_OK then "OK"
  else if e =? AVAHI_ERR_BAD_STATE then "Bad state"
  else if e =? AVAHI_ERR_COLLISION then "Local name collision"
  else if e =? AVAHI_ERR_IS_EMPTY then "Is empty"
  else if e =? AVAHI_ERR_NOT_FOUND then "Not found"
  else "Invalid Error Code".

(** The first alternative of a name: [" #2"] appended. *)
Definition alternativeName (s : string) : option string := Some (s +:+ " #2").

Definition txtList (txt : gmap string string) : option AvahiStringList :=
  match map_to_list txt with
  | [] => None
  | l => Some (map (fun kv => kv.1 +:+ "=" +:+ kv.2) l)
  end.

#[global] Instance platform : Platform := {|
  QHostAddress := Address;
  QHostAddress_of := parseIPv4;
  QHostAddress_null := None;
  protocol := fun a =>
    match a with Some _ => IPv4Protocol | None => UnknownNetworkLayerProtocol end;
  toString := printIPv4;
  parseSubnet := parseSubnet4;
  isInSubnet := isInSubnet4;
  World := Daemon;
  allInterfaces := interfaces;
  avahi_client_get_state := getState;
  avahi_client_errno := fun w _ => errno w;
  avahi_strerror := strerror;
  avahi_entry_group_new := groupNew;
  avahi_entry_group_is_empty := isEmpty;
  avahi_entry_group_add_service_strlst := addService;
  avahi_entry_group_commit := commit;
  avahi_entry_group_reset := reset;
  avahi_entry_group_update_service_txt_strlst := updateTxt;
  avahi_alternative_service_name := alternativeName;
  createTxtList := txtList
|}.

(** *** A host with two interfaces on one subnet *)

Definition ipv4 (a b c d : Z) : Address := Some (((a * 256 + b) * 256 + c) * 256 + d).

Definition eth0 : QNetworkInterface Address :=
  {| index := 2;
     addressEntries := [ {| ip := ipv4 192 168 1 10; netmask := ipv4 255 255 255 0 |} ] |}.

Definition wlan0 : QNetworkInterface Address :=
  {| index := 3;
     addressEntries := [ {| ip := ipv4 192 168 1 20; netmask := ipv4 255 255 255 0 |} ] |}.

Definition host : Daemon :=
  {| interfaces := [eth0; wlan0]; running := true; taken := [];
     entries := []; committed := false; errno := 0 |}.

Definition fresh : Config := QtAvahiService_new (Some (ClientAt 1)) host.

Definition office : gmap string string := {[ "note" := "office" ]}.
Definition lab : gmap string string := {[ "note" := "lab" ]}.

(** The address the examples bind to, on the subnet of both interfaces. *)
Definition bind : Address := ipv4 192 168 1 5.

(** The object after its first register. *)
Definition registered : Config :=
  match registerService 1 "printer" bind 9100 "_ipp._tcp" office false fresh with
  | Some (_, c) => c
  | None => fresh
  end.


(** The same host while the client is not connected to the daemon. *)
Definition down : Daemon :=
  {| interfaces := [eth0; wlan0]; running := false; taken := [];
     entries := []; committed := false; errno := 0 |}.

Definition unconnected : Config := QtAvahiService_new (Some (ClientAt 1)) down.

(** The same host when another client has taken the name "printer". *)
Definition crowded : Daemon :=
  {| interfaces := [eth0; wlan0]; running := true; taken := ["printer"];
     entries := []; committed := false; errno := 0 |}.

Definition contender : Config := QtAvahiService_new (Some (ClientAt 1)) crowded.

(** What a second register without a reset in between leaves. *)
Definition rejected : Config :=
  match registerService 1 "printer2" bind 9100 "_ipp._tcp" office false registered with
  | Some (_, c) => c
  | None => registered
  end.

(** The TXT record of the registered service replaced by [lab]. *)
Definition updated : bool * Config := updateTxtRecord lab registered.

(** The daemon reports a collision after the update. *)
Definition retried : option Config :=
  onStateChanged 2 QtAvahiServiceStateCollision updated.2.

(** A host whose interfaces are on different subnets. *)
Definition lo : QNetworkInterface Address :=
  {| index := 1;
     addressEntries := [ {| ip := ipv4 127 0 0 1; netmask := ipv4 255 0 0 0 |} ] |}.

Definition routed : Daemon :=
  {| interfaces := [lo; eth0]; running := true; taken := [];
     entries := []; committed := false; errno := 0 |}.

(** The first register on the crowded host. *)
Definition contended : option (bool * Config) :=
  registerService 2 "printer" bind 9100 "_ipp._tcp" office false contender.

End Sim.

(** ** Runs on the small host *)

Module Run.

(** The first register on the crowded host after its add-service, and
    after the retry under the alternative name. *)
Definition collided : Config :=
  addService Sim.bind Sim.office
    (cacheValues "printer" Sim.bind 9100 "_ipp._tcp" Sim.office Sim.contender).

Definition renamed : Config :=
  match handleCollision 1
          (addService Sim.bind Sim.office
             (cacheValues "printer" Sim.bind 9100 "_ipp._tcp" Sim.office Sim.contender)) with
  | Some (_, c) => c
  | None => Sim.contender
  end.


(** The timeout of the timer after the update of the TXT record. *)
Definition refreshed : Config :=
  match deliver 1 Timeout (updateTxtRecord Sim.lab Sim.registered).2 with
  | Some c => c
  | None => Sim.registered
  end.

End Run.

(** * Facts about the methods *)

Ltac unfold_stages :=
  unfold cacheValues, addService, commitService, createGroupIfUnset, resetService,
    set_m_descriptor, set_d_descriptor, set_serviceList, set_error, set_group,
    set_world, set_m_txtRecords, set_m_state, with_timer, with_d,
    fixedPart, cachedValues, privateValues,
    group, error, serviceList, timer, name, hostAddress, port, serviceType,
    txtRecords, state in *.

Section Facts.

Context `{P : Platform}.

Implicit Types (c : Config) (fuel : nat) (silent : bool).

Lemma cacheValues_fixedPart n h p t x c :
  fixedPart (cacheValues n h p t x c) = fixedPart c.
Proof.
  unfold_stages. destruct c as [[[cl g sl e ? ? ? ? ?] ? ? ? ? ? ? ?] w]; simpl.
  destruct g; simpl; [done|].
  by destruct (avahi_entry_group_new w cl).
Qed.

Lemma cacheValues_values n h p t x c :
  cachedValues (cacheValues n h p t x c) = (n, h, p, t, x) /\
  privateValues (cacheValues n h p t x c) = (n, h, p, t, x).
Proof.
  unfold_stages. destruct c as [[[cl g sl e ? ? ? ? ?] ? ? ? ? ? ? ?] w]; simpl.
  destruct g; simpl; [done|].
  by destruct (avahi_entry_group_new w cl).
Qed.

Lemma cacheValues_error n h p t x c :
  error (cacheValues n h p t x c) = error c.
Proof.
  unfold_stages. destruct c as [[[cl g sl e ? ? ? ? ?] ? ? ? ? ? ? ?] w]; simpl.
  destruct g; simpl; [done|].
  by destruct (avahi_entry_group_new w cl).
Qed.

Lemma addService_frame h x c :
  fixedPart (addService h x c) = fixedPart c /\
  cachedValues (addService h x c) = cachedValues c /\
  privateValues (addService h x c) = privateValues c /\
  group (addService h x c) = group c /\
  timer (addService h x c) = timer c.
Proof.
  unfold_stages. destruct c as [[[cl g sl e ? ? ? ? ?] ? ? ? ? ? ? ?] w]; simpl.
  by destruct (avahi_entry_group_add_service_strlst _ _ _ _ _ _ _ _).
Qed.

Lemma resetService_frame silent c :
  fixedPart (resetService silent c) = fixedPart c /\
  cachedValues (resetService silent c) = cachedValues c /\
  privateValues (resetService silent c) = privateValues c /\
  group (resetService silent c) = group c /\
  error (resetService silent c) = error c.
Proof.
  unfold_stages. destruct c as [[[cl g sl e ? ? ? ? ?] ? ? ? ? ? ? ?] w]; simpl.
  destruct g; simpl; [|done].
  by destruct sl.
Qed.

Lemma commitService_inv c r c' :
  commitService c = Some (r, c') ->
  fixedPart c' = fixedPart c /\
  cachedValues c' = cachedValues c /\
  privateValues c' = privateValues c /\
  group c' = group c /\
  (r = false -> error c' <> 0 /\ timer c' = timer c) /\
  (r = true -> error c' = 0 /\ timer c' = QTimer_start (timer c)).
Proof.
  unfold_stages. destruct c as [[[cl g sl e ? ? ? ? ?] ? ? ? ? ? ? ?] w]; simpl.
  destruct (avahi_entry_group_commit w g) as [w' e']; simpl.
  case_bool_decide; intros [= <- <-]; simpl; repeat split; try done; lia.
Qed.

Lemma commitService_returns c : exists r c', commitService c = Some (r, c').
Proof.
  unfold commitService.
  destruct (avahi_entry_group_commit _ _) as [w' e].
  case_bool_decide; eauto.
Qed.

Lemma set_serviceList_None_id c :
  serviceList c = None -> set_serviceList None c = c.
Proof.
  unfold serviceList.
  destruct c as [[[cl g sl e ? ? ? ? ?] ? ? ? ? ? ? ?] w]; simpl. by intros ->.
Qed.

Lemma resetService_no_group silent c :
  group c = None -> resetService silent c = c.
Proof. unfold resetService. by intros ->. Qed.

Lemma resetService_group silent c g :
  group c = Some g ->
  resetService silent c =
  with_timer QTimer_stop
    (set_world (avahi_entry_group_reset (world c) (Some g)) (set_serviceList None c)).
Proof.
  unfold resetService. intros Hg. rewrite Hg. cbv zeta.
  destruct (serviceList c) eqn:Hsl.
  - change (group (set_serviceList None c)) with (group c).
    change (world (set_serviceList None c)) with (world c).
    by rewrite Hg.
  - rewrite Hg. by rewrite (set_serviceList_None_id c Hsl).
Qed.

Lemma registerService_S fuel n h p t x silent c :
  registerService (S fuel) n h p t x silent c =
  if negb (clientRunning c) then Some (false, c)
  else
    let c0 := cacheValues n h p t x c in
    if avahi_entry_group_is_empty (world c0) (group c0) then
      let c1 := addService h x c0 in
      if bool_decide (error c1 ≠ 0) then
        if bool_decide (error c1 = AVAHI_ERR_COLLISION) then
          match handleCollision fuel c1 with
          | None => None
          | Some (false, c2) => Some (false, c2)
          | Some (true, c2) => commitService c2
          end
        else Some (false, c1)
      else commitService c1
    else Some (false, c0).
Proof. reflexivity. Qed.

Lemma handleCollision_unfold fuel c :
  handleCollision fuel c =
  registerService fuel (alternativeServiceName (name c)) (hostAddress c) (port c)
    (serviceType c) (txtRecords c) false (resetService false c).
Proof.
  unfold handleCollision, handleCollisionWith.
  destruct (resetService_frame false c) as (_ & _ & Hp & _).
  unfold privateValues in Hp. injection Hp as _ Hh Hq Ht Hx.
  by rewrite Hh, Hq, Ht, Hx.
Qed.

(** Case analysis of one call, with the stages named. *)
Ltac register_cases H IH :=
  rewrite registerService_S in H;
  destruct (clientRunning _) eqn:Hrun; simpl in H;
  [ destruct (avahi_entry_group_is_empty _ _) eqn:Hempty;
    [ case_bool_decide as Herr;
      [ case_bool_decide as Hcoll;
        [ destruct (handleCollision _ _) as [[[] ?c2]|] eqn:Hretry;
          [ | | discriminate H ]
        | ]
      | ]
    | ]
  | ].

Lemma registerService_fixedPart fuel : forall n h p t x silent c r c',
  registerService fuel n h p t x silent c = Some (r, c') ->
  fixedPart c' = fixedPart c.
Proof.
  induction fuel as [|fuel IH]; intros n h p t x silent c r c' H; [done|].
  pose proof (cacheValues_fixedPart n h p t x c) as H0.
  pose proof (addService_frame h x (cacheValues n h p t x c)) as (H1 & _).
  pose proof (resetService_frame false (addService h x (cacheValues n h p t x c)))
    as (H2 & _).
  register_cases H IH.
  - rewrite handleCollision_unfold in Hretry. apply IH in Hretry.
    apply commitService_inv in H as (H3 & _). congruence.
  - rewrite handleCollision_unfold in Hretry. apply IH in Hretry.
    injection H as <-. congruence.
  - injection H as <- <-. congruence.
  - apply commitService_inv in H as (H3 & _). congruence.
  - by injection H as <- <-.
  - by injection H as <- <-.
Qed.

Lemma QTimer_start_settings (t1 t2 : QTimer) :
  interval t1 = interval t2 -> singleShot t1 = singleShot t2 ->
  QTimer_start t1 = QTimer_start t2.
Proof. unfold QTimer_start. by intros -> ->. Qed.

Lemma fixedPart_QTimer_start c c' :
  fixedPart c' = fixedPart c -> QTimer_start (timer c') = QTimer_start (timer c).
Proof.
  unfold fixedPart. intros [= _ _ Hi Hs]. by apply QTimer_start_settings.
Qed.

Lemma registerService_not_running fuel n h p t x silent c r c' :
  clientRunning c = false ->
  registerService fuel n h p t x silent c = Some (r, c') ->
  r = false /\ c' = c.
Proof.
  intros Hrun H. destruct fuel as [|fuel]; [done|].
  rewrite registerService_S, Hrun in H. simpl in H. by injection H as <- <-.
Qed.

Lemma registerService_true fuel n h p t x silent c c' :
  registerService fuel n h p t x silent c = Some (true, c') ->
  clientRunning c = true /\ error c' = 0 /\
  timer c' = QTimer_start (timer c).
Proof.
  intros H. pose proof (registerService_fixedPart _ _ _ _ _ _ _ _ _ _ H) as Hfix.
  destruct fuel as [|fuel]; [done|].
  register_cases H IH; try discriminate H.
  - apply commitService_inv in H as (H3 & _ & _ & _ & _ & Htrue).
    destruct (Htrue eq_refl) as [He Ht].
    repeat split; [done|]. rewrite Ht. apply fixedPart_QTimer_start. congruence.
  - apply commitService_inv in H as (H3 & _ & _ & _ & _ & Htrue).
    destruct (Htrue eq_refl) as [He Ht].
    repeat split; [done|]. rewrite Ht. apply fixedPart_QTimer_start. congruence.
Qed.

Lemma registerService_false fuel : forall n h p t x silent c c',
  registerService fuel n h p t x silent c = Some (false, c') ->
  let c0 := cacheValues n h p t x c in
  (clientRunning c = false /\ c' = c) \/
  (clientRunning c = true /\
   avahi_entry_group_is_empty (world c0) (group c0) = false /\ c' = c0) \/
  (clientRunning c = true /\
   avahi_entry_group_is_empty (world c0) (group c0) = true /\ error c' <> 0).
Proof.
  induction fuel as [|fuel IH]; intros n h p t x silent c c' H; [done|].
  simpl. register_cases H IH.
  - apply commitService_inv in H as (_ & _ & _ & _ & He & _).
    right; right. split_and!; [done..|]. by apply He.
  - injection H as <-. right; right. split_and!; [done..|].
    rewrite handleCollision_unfold in Hretry. apply IH in Hretry.
    destruct (resetService_frame false (addService h x (cacheValues n h p t x c)))
      as (_ & _ & _ & _ & Hreset).
    destruct Hretry as [(_ & ->)|[(_ & _ & ->)|(_ & _ & He)]]; [..|done].
    + by rewrite Hreset.
    + by rewrite cacheValues_error, Hreset.
  - injection H as <-. right; right. by split_and!.
  - apply commitService_inv in H as (_ & _ & _ & _ & He & _).
    right; right. split_and!; [done..|]. by apply He.
  - injection H as <-. right; left. by split_and!.
  - injection H as <-. by left.
Qed.

Lemma registerService_values fuel : forall n h p t x silent c r c',
  clientRunning c = true ->
  registerService fuel n h p t x silent c = Some (r, c') ->
  exists k : nat,
    cachedValues c' = (Nat.iter k alternativeServiceName n, h, p, t, x) /\
    privateValues c' = (Nat.iter k alternativeServiceName n, h, p, t, x).
Proof.
  induction fuel as [|fuel IH]; intros n h p t x silent c r c' Hr H; [done|].
  destruct (cacheValues_values n h p t x c) as [Hm0 Hd0].
  destruct (addService_frame h x (cacheValues n h p t x c))
    as (_ & Hm1 & Hd1 & _).
  destruct (resetService_frame false (addService h x (cacheValues n h p t x c)))
    as (_ & Hm2 & Hd2 & _).
  assert (forall c2 b,
    handleCollision fuel (addService h x (cacheValues n h p t x c)) = Some (b, c2) ->
    exists k : nat,
      cachedValues c2 = (Nat.iter k alternativeServiceName n, h, p, t, x) /\
      privateValues c2 = (Nat.iter k alternativeServiceName n, h, p, t, x))
    as Hretry_values.
  { intros c2 b Hretry. rewrite handleCollision_unfold in Hretry.
    assert (privateValues (addService h x (cacheValues n h p t x c)) = (n, h, p, t, x))
      as Hd by congruence.
    unfold privateValues in Hd. injection Hd as Hn Hh Hp Ht Hx.
    rewrite Hn, Hh, Hp, Ht, Hx in Hretry.
    destruct (clientRunning (resetService false
                (addService h x (cacheValues n h p t x c)))) eqn:Hrun'.
    - destruct (IH _ _ _ _ _ _ _ _ _ Hrun' Hretry) as (k & Hk1 & Hk2).
      exists (S k). by rewrite Nat.iter_succ_r.
    - destruct (registerService_not_running _ _ _ _ _ _ _ _ _ _ Hrun' Hretry) as [_ ->].
      exists O. simpl. split; congruence. }
  register_cases H IH; try congruence.
  - destruct (Hretry_values _ _ eq_refl) as (k & Hk1 & Hk2).
    apply commitService_inv in H as (_ & Hm3 & Hd3 & _).
    exists k. split; congruence.
  - injection H as <- <-. by apply (Hretry_values _ false).
  - injection H as <- <-. exists O. simpl. split; congruence.
  - apply commitService_inv in H as (_ & Hm3 & Hd3 & _).
    exists O. simpl. split; congruence.
  - injection H as <- <-. by exists O.
Qed.

(** Without a collision reported by add-service one unit of fuel is enough,
    and the values are those of the call. *)
Lemma registerService_no_collision fuel n h p t x silent c :
  let c0 := cacheValues n h p t x c in
  clientRunning c = true ->
  avahi_entry_group_is_empty (world c0) (group c0) = false \/
  error (addService h x c0) <> AVAHI_ERR_COLLISION ->
  exists r c',
    registerService (S fuel) n h p t x silent c = Some (r, c') /\
    cachedValues c' = (n, h, p, t, x) /\
    privateValues c' = (n, h, p, t, x).
Proof.
  intros c0 Hrun Hno. subst c0.
  destruct (cacheValues_values n h p t x c) as [Hm0 Hd0].
  destruct (addService_frame h x (cacheValues n h p t x c))
    as (_ & Hm1 & Hd1 & _).
  rewrite registerService_S, Hrun. simpl.
  destruct (avahi_entry_group_is_empty _ _) eqn:Hempty.
  - destruct Hno as [|Hno]; [done|].
    case_bool_decide as Herr.
    + rewrite bool_decide_eq_false_2 by done.
      eexists _, _. split; [done|]. split; congruence.
    + destruct (commitService_returns (addService h x (cacheValues n h p t x c)))
        as (r & c' & Hc).
      exists r, c'. split; [done|].
      apply commitService_inv in Hc as (_ & Hm3 & Hd3 & _). split; congruence.
  - eexists _, _. by split.
Qed.

Lemma registerService_more_fuel fuel : forall n h p t x silent c res,
  registerService fuel n h p t x silent c = Some res ->
  registerService (S fuel) n h p t x silent c = Some res.
Proof.
  induction fuel as [|fuel IH]; intros n h p t x silent c res H; [done|].
  rewrite registerService_S in H. rewrite registerService_S.
  destruct (negb (clientRunning c)); [done|]. cbv zeta in *.
  destruct (avahi_entry_group_is_empty _ _); [|done].
  case_bool_decide; [|done]. case_bool_decide; [|done].
  rewrite handleCollision_unfold in *.
  destruct (registerService fuel _ _ _ _ _ _ _) as [res'|] eqn:Hretry; [|done].
  by rewrite (IH _ _ _ _ _ _ _ _ Hretry).
Qed.

Lemma updateTxtRecord_frame x c :
  fixedPart (updateTxtRecord x c).2 = fixedPart c /\
  privateValues (updateTxtRecord x c).2 = privateValues c /\
  group (updateTxtRecord x c).2 = group c /\
  timer (updateTxtRecord x c).2 = timer c.
Proof.
  unfold updateTxtRecord. unfold_stages.
  destruct c as [[[cl g sl e ? ? ? ? ?] ? ? ? ? ? ? ?] w]; simpl.
  destruct g; simpl; [|done].
  destruct (avahi_entry_group_update_service_txt_strlst _ _ _ _ _ _ _) as [w' e'].
  simpl. by case_bool_decide.
Qed.

Lemma updateTxtRecord_no_group x c :
  group c = None -> updateTxtRecord x c = (false, c).
Proof. unfold updateTxtRecord. by intros ->. Qed.

(** With a group the member [m_txtRecords] is written before the
    discovery layer is asked, whatever it answers. *)
Lemma updateTxtRecord_cached x c :
  group c <> None -> m_txtRecords (self (updateTxtRecord x c).2) = x.
Proof.
  unfold updateTxtRecord. unfold_stages.
  destruct c as [[[cl g sl e ? ? ? ? ?] ? ? ? ? ? ? ?] w]; simpl.
  destruct g; simpl; [|done]. intros _.
  destruct (avahi_entry_group_update_service_txt_strlst _ _ _ _ _ _ _) as [w' e'].
  simpl. by case_bool_decide.
Qed.

Lemma updateTxtRecord_result x c :
  (updateTxtRecord x c).1 = true <->
  group c <> None /\ error (updateTxtRecord x c).2 = 0.
Proof.
  unfold updateTxtRecord. unfold_stages.
  destruct c as [[[cl g sl e ? ? ? ? ?] ? ? ? ? ? ? ?] w]; simpl.
  destruct g as [a|]; simpl; [|split; [done|by intros [? _]]].
  destruct (avahi_entry_group_update_service_txt_strlst _ _ _ _ _ _ _) as [w' e'].
  simpl. case_bool_decide as He; simpl.
  - split; [done|]. by intros [_ ?].
  - split; [|done]. intros _. split; [done|].
    destruct (decide (e' = 0)); [done|]. by destruct He.
Qed.

(** *** The loops that choose the interface *)

Lemma scanEntries_existsb h i es acc :
  scanEntries h i es acc = if existsb (entryMatches h) es then index i else acc.
Proof.
  induction es as [|e es IH]; simpl; [done|].
  by destruct (entryMatches h e).
Qed.

Lemma scanInterfaces_snoc h l i acc :
  scanInterfaces h (l ++ [i]) acc =
  if interfaceMatches h i then index i else scanInterfaces h l acc.
Proof.
  revert acc. induction l as [|j l IH]; intros acc; simpl.
  - apply scanEntries_existsb.
  - apply IH.
Qed.

(** The loops return the index of the last interface that matches. *)
Lemma scanInterfaces_last h l :
  scanInterfaces h l AVAHI_IF_UNSPEC = firstMatchingIndex h (rev l).
Proof.
  induction l as [|i l IH] using rev_ind; [done|].
  rewrite scanInterfaces_snoc, rev_app_distr. simpl. by rewrite IH.
Qed.

Lemma scanInterfaces_no_match h l acc :
  existsb (interfaceMatches h) l = false -> scanInterfaces h l acc = acc.
Proof.
  revert acc. induction l as [|i l IH]; intros acc; simpl; [done|].
  rewrite scanEntries_existsb. fold (interfaceMatches h i).
  destruct (interfaceMatches h i); simpl; [done|]. apply IH.
Qed.

Lemma firstMatchingIndex_some h l :
  existsb (interfaceMatches h) l = true ->
  exists i, In i l /\ interfaceMatches h i = true /\
            firstMatchingIndex h l = index i.
Proof.
  induction l as [|j l IH]; simpl; [done|].
  destruct (interfaceMatches h j) eqn:Hj; simpl.
  - intros _. exists j. auto.
  - intros Hex. destruct (IH Hex) as (i & Hin & Hm & Hi). exists i. auto.
Qed.

Lemma scanInterfaces_match h l acc :
  existsb (interfaceMatches h) l = true ->
  scanInterfaces h l acc = scanInterfaces h l AVAHI_IF_UNSPEC.
Proof.
  revert acc. induction l as [|i l IH]; intros acc; simpl; [done|].
  rewrite !scanEntries_existsb. fold (interfaceMatches h i).
  destruct (interfaceMatches h i); simpl; [done|]. apply IH.
Qed.

(** When the interfaces that match all carry one index, the last match is
    the first. *)
Lemma scanInterfaces_first_when_unique h l :
  (forall i j, In i l -> In j l ->
     interfaceMatches h i = true -> interfaceMatches h j = true ->
     index i = index j) ->
  scanInterfaces h l AVAHI_IF_UNSPEC = firstMatchingIndex h l.
Proof.
  induction l as [|i l IH]; intros Huniq; simpl; [done|].
  rewrite scanEntries_existsb. fold (interfaceMatches h i).
  destruct (interfaceMatches h i) eqn:Hi.
  - destruct (existsb (interfaceMatches h) l) eqn:Hex.
    + rewrite scanInterfaces_match, IH by (try done; intros; apply Huniq; simpl; auto).
      destruct (firstMatchingIndex_some h l Hex) as (j & Hin & Hj & ->).
      apply Huniq; simpl; auto.
    + by apply scanInterfaces_no_match.
  - apply IH. intros; apply Huniq; simpl; auto.
Qed.

Lemma resolveIfIndex_wildcard w :
  resolveIfIndex w (QHostAddress_of "0.0.0.0") = AVAHI_IF_UNSPEC.
Proof. unfold resolveIfIndex. by rewrite bool_decide_eq_false_2 by naive_solver. Qed.

Lemma resolveIfIndex_no_match w h :
  existsb (interfaceMatches h) (allInterfaces w) = false ->
  resolveIfIndex w h = AVAHI_IF_UNSPEC.
Proof.
  intros Hno. unfold resolveIfIndex. case_bool_decide; [|done].
  by apply scanInterfaces_no_match.
Qed.

(** *** Reachable configurations *)

Lemma QTimer_fired_settings (t : QTimer) :
  interval (QTimer_fired t) = interval t /\
  singleShot (QTimer_fired t) = singleShot t.
Proof. by destruct t as [i [] r]. Qed.

Lemma fixedPart_timer_settings c c' :
  fixedPart c' = fixedPart c ->
  interval (timer c') = interval (timer c) /\
  singleShot (timer c') = singleShot (timer c).
Proof. unfold fixedPart. intros [= _ _ Hi Hs]. split; assumption. Qed.

Lemma onStateChanged_timer_settings fuel st c c' :
  onStateChanged fuel st c = Some c' ->
  interval (timer c') = interval (timer c) /\
  singleShot (timer c') = singleShot (timer c).
Proof.
  unfold onStateChanged. case_bool_decide; [intros [= <-]; done|].
  assert (m_state (self (set_m_state st c)) = st) as -> by done.
  assert (timer (set_m_state st c) = timer c) as Ht by done.
  destruct st; try (intros [= <-]; done).
  rewrite handleCollision_unfold.
  destruct (registerService _ _ _ _ _ _ _ _) as [[r c2]|] eqn:Hreg; [|done].
  intros [= <-]; simpl. apply registerService_fixedPart in Hreg.
  destruct (resetService_frame false (set_m_state QtAvahiServiceStateCollision c))
    as (Hfix & _).
  rewrite Hfix in Hreg. apply fixedPart_timer_settings in Hreg. exact Hreg.
Qed.

Lemma deliver_timer_settings fuel e c c' :
  deliver fuel e c = Some c' ->
  interval (timer c') = interval (timer c) /\
  singleShot (timer c') = singleShot (timer c).
Proof.
  destruct e as [n h p t x| |x|st| |msec|w]; simpl.
  - destruct (registerService _ _ _ _ _ _ _ _) as [[r c2]|] eqn:Hreg; [|done].
    intros [= <-]; simpl. apply registerService_fixedPart in Hreg.
    by apply fixedPart_timer_settings.
  - intros [= <-]. destruct (resetService_frame false c) as (Hfix & _).
    by apply fixedPart_timer_settings.
  - intros [= <-]. destruct (updateTxtRecord_frame x c) as (Hfix & _).
    by apply fixedPart_timer_settings.
  - apply onStateChanged_timer_settings.
  - destruct (remaining (timer c)) as [r|] eqn:Hr; [|done].
    unfold onReregisterTimeout.
    destruct (registerService _ _ _ _ _ _ _ _) as [[b c2]|] eqn:Hreg; [|done].
    intros [= <-]; simpl. apply registerService_fixedPart in Hreg.
    destruct (resetService_frame true (with_timer QTimer_fired c)) as (Hfix & _).
    rewrite Hfix in Hreg. apply fixedPart_timer_settings in Hreg as [-> ->].
    unfold timer, with_timer; simpl. apply QTimer_fired_settings.
  - destruct (remaining (timer c)) as [r|]; case_bool_decide; try done;
      intros [= <-]; done.
  - intros [= <-]. done.
Qed.

Lemma reachable_timer_settings m w c :
  reachable m w c ->
  interval (timer c) = 60000 /\ singleShot (timer c) = true.
Proof.
  induction 1 as [|fuel e c c' _ [IHi IHs] Hstep]; [done|].
  apply deliver_timer_settings in Hstep as [-> ->]. done.
Qed.

End Facts.

(** * Facts about the small host and daemon *)

Lemma string_length_append (s1 s2 : string) :
  String.length (s1 +:+ s2) = (String.length s1 + String.length s2)%nat.
Proof.
  induction s1 as [|a s1 IH]; [reflexivity|].
  change (String a s1 +:+ s2) with (String a (s1 +:+ s2)).
  simpl. by rewrite IH.
Qed.

Lemma toStdString_length (s : QString) :
  (String.length s <= String.length (toStdString s))%nat.
Proof.
  induction s as [|a s IH]; simpl; [lia|].
  unfold utf8_of_latin1.
  destruct (N_of_ascii a <? 128)%N; rewrite string_length_append; simpl; lia.
Qed.

Lemma Sim_strerror_nonempty (e : Z) : Sim.strerror e <> "".
Proof. unfold Sim.strerror. by repeat case_match. Qed.

Lemma Sim_reset_idempotent (w : Sim.Daemon) (g : option AvahiEntryGroup) :
  Sim.reset (Sim.reset w g) g = Sim.reset w g.
Proof. reflexivity. Qed.

Lemma option_pair_eta {A : Type} (o : option (bool * A)) (b : bool) (d : A) :
  fst <$> o = Some b ->
  o = Some (b, match o with Some (_, c) => c | None => d end).
Proof. destruct o as [[b' c]|]; simpl; [|done]. by intros [= ->]. Qed.

Lemma Sim_register_fresh :
  registerService 1 "printer" Sim.bind 9100 "_ipp._tcp" Sim.office false Sim.fresh
  = Some (true, Sim.registered).
Proof.
  refine (option_pair_eta
            (registerService 1 "printer" Sim.bind 9100 "_ipp._tcp" Sim.office false
               Sim.fresh) true Sim.fresh _).
  vm_compute. reflexivity.
Qed.

Lemma Sim_register_twice :
  registerService 1 "printer2" Sim.bind 9100 "_ipp._tcp" Sim.office false Sim.registered
  = Some (false, Sim.rejected).
Proof.
  refine (option_pair_eta
            (registerService 1 "printer2" Sim.bind 9100 "_ipp._tcp" Sim.office false
               Sim.registered) false Sim.registered _).
  vm_compute. reflexivity.
Qed.

Lemma Sim_registered_reachable :
  reachable (Some (ClientAt 1)) Sim.host Sim.registered.
Proof.
  refine (reachable_step (P := Sim.platform) (Some (ClientAt 1)) Sim.host 1%nat
            (CallRegister (P := Sim.platform) "printer" Sim.bind 9100 "_ipp._tcp"
               Sim.office)
            Sim.fresh Sim.registered (reachable_new _ _) _).
  change (snd <$> registerService 1 "printer" Sim.bind 9100 "_ipp._tcp" Sim.office
                    false Sim.fresh = Some Sim.registered).
  by rewrite Sim_register_fresh.
Qed.

Lemma Sim_office_lab : Sim.office <> Sim.lab.
Proof.
  intros Heq. apply (f_equal (fun m : gmap string string => m !! "note")) in Heq.
  vm_compute in Heq. discriminate Heq.
Qed.

(** * The claims *)

(** C1 (the code differs).  On a host whose two interfaces, with indexes 2
    and 3 in that order, are both on the subnet of the bind address, the
    loops of [registerService] choose index 3, the last match, where the
    first interface whose subnet contains the address has index 2; and 3 is
    the index that reaches the discovery layer in the added entry. *)
Theorem resolveIfIndex_overlapping_subnets :
  resolveIfIndex Sim.host Sim.bind = 3 /\
  specIfIndex Sim.host Sim.bind = 2 /\
  Sim.e_interface <$> Sim.entries (world Sim.registered) = [3].
Proof. split_and!; vm_compute; reflexivity. Qed.

(** C2, as stated, fails: a register on the group that already holds the
    service returns false and leaves [isValid] true. *)
Lemma register_twice_stays_valid :
  registerService 1 "printer2" Sim.bind 9100 "_ipp._tcp" Sim.office false Sim.registered
    = Some (false, Sim.rejected) /\
  isValid Sim.rejected = true.
Proof. split; [apply Sim_register_twice|]. vm_compute. reflexivity. Qed.

(** C3 (the code differs).  The registered service carries the metadata
    [office]; [updateTxtRecord lab] returns true, and afterwards
    [txtRecords] still returns [office]: only the member [m_txtRecords]
    holds [lab].  The retry after a later collision registers the entry
    with the TXT list of [office]. *)
Theorem updateTxtRecord_keeps_txtRecords :
  Sim.updated.1 = true /\
  txtRecords Sim.updated.2 = Sim.office /\
  m_txtRecords (self Sim.updated.2) = Sim.lab /\
  Sim.office <> Sim.lab /\
  (fun c => Sim.e_txt <$> Sim.entries (world c)) <$> Sim.retried
    = Some [Some ["note=office"]].
Proof.
  split_and!; try (vm_compute; reflexivity).
  apply Sim_office_lab.
Qed.

(** C4 (the code differs).  The registered service carries the metadata
    [office] and an accepted [updateTxtRecord] has replaced it by [lab] at
    the discovery layer and in [m_txtRecords].  When the state [Collision]
    is then delivered, the service is reset and registered again under the
    alternative name with the same type and port, but with the TXT list of
    [office]: [handleCollision] takes the metadata from [txtRecords], which
    the update did not write. *)
Theorem handleCollision_registers_stale_metadata :
  Sim.updated.1 = true /\
  Sim.e_txt <$> Sim.entries (world Sim.updated.2) = [Some ["note=lab"]] /\
  m_txtRecords (self Sim.updated.2) = Sim.lab /\
  (fun c => (fun e => (Sim.e_name e, Sim.e_type e, Sim.e_port e, Sim.e_txt e))
              <$> Sim.entries (world c)) <$> Sim.retried
    = Some [("printer #2", "_ipp._tcp", 9100, Some ["note=office"])].
Proof. split_and!; vm_compute; reflexivity. Qed.

(** C6, as stated, fails: after the first register of a new object the
    timer runs and the cached state is still [Uncommitted]. *)
Lemma timer_runs_while_uncommitted :
  ~ (forall c : Config,
       reachable (Some (ClientAt 1)) Sim.host c ->
       isActive (timer c) = true ->
       state c = QtAvahiServiceStateEstablished).
Proof.
  intros Hinv.
  assert (state Sim.registered = QtAvahiServiceStateEstablished) as Hst.
  { apply Hinv; [apply Sim_registered_reachable|]. vm_compute. reflexivity. }
  vm_compute in Hst. discriminate Hst.
Qed.

Section Claims.

Context `{P : Platform}.

Implicit Types (c : Config) (fuel : nat) (silent : bool).

(** C2, amended.  A register that returns false leaves the cached state as
    it was, and [errorString] is not empty (as long as [avahi_strerror]
    never gives an empty string).  If it failed because the client does
    not run, nothing changed.  If it failed because the group is not empty,
    only the values were cached and the group created if unset: the
    recorded error is the one from before the call.  If it failed at
    add-service or commit, the recorded error is not zero and [isValid] is
    false.  After an add-service error other than a collision the
    configuration is the one add-service left: nothing was committed. *)
Theorem registerService_failed fuel n h p t x silent c c' :
  (forall e, avahi_strerror e <> "") ->
  registerService fuel n h p t x silent c = Some (false, c') ->
  let c0 := cacheValues n h p t x c in
  state c' = state c /\
  errorString c' <> "" /\
  ((clientRunning c = false /\ c' = c) \/
   (clientRunning c = true /\
    avahi_entry_group_is_empty (world c0) (group c0) = false /\
    c' = c0 /\ error c' = error c) \/
   (clientRunning c = true /\
    avahi_entry_group_is_empty (world c0) (group c0) = true /\
    error c' <> 0 /\ isValid c' = false)) /\
  (clientRunning c = true ->
   avahi_entry_group_is_empty (world c0) (group c0) = true ->
   error (addService h x c0) <> 0 ->
   error (addService h x c0) <> AVAHI_ERR_COLLISION ->
   c' = addService h x c0).
Proof.
  intros Hstr H c0.
  pose proof (registerService_fixedPart _ _ _ _ _ _ _ _ _ _ H) as Hfix.
  split_and!.
  - unfold fixedPart in Hfix. by injection Hfix as Hst _ _ _.
  - unfold errorString. destruct (d_client (d_ptr (self c'))); [apply Hstr|done].
  - destruct (registerService_false _ _ _ _ _ _ _ _ _ H)
      as [(Hrun & ->)|[(Hrun & Hne & ->)|(Hrun & He & Herr)]].
    + by left.
    + right; left. split_and!; try done. apply cacheValues_error.
    + right; right. split_and!; try done.
      unfold isValid. destruct (group c'); [|done].
      by apply bool_decide_eq_false_2.
  - intros Hrun Hempty Herr Hcoll. subst c0.
    destruct fuel as [|fuel]; [done|].
    rewrite registerService_S, Hrun in H. simpl in H. rewrite Hempty in H.
    rewrite (bool_decide_eq_true_2 _ Herr) in H.
    rewrite (bool_decide_eq_false_2 _ Hcoll) in H.
    by injection H as <-.
Qed.

(** C5.  Delivering the state that is already cached changes nothing.
    Delivering another state that is not [Collision] only replaces the
    cached state.  Delivering [Collision] replaces the cached state and
    handles the collision.  In every case the cached state afterwards is
    the delivered one. *)
Theorem onStateChanged_cases fuel st c :
  (state c = st -> onStateChanged fuel st c = Some c) /\
  (state c <> st -> st <> QtAvahiServiceStateCollision ->
   onStateChanged fuel st c = Some (set_m_state st c)) /\
  (state c <> st -> st = QtAvahiServiceStateCollision ->
   onStateChanged fuel st c = snd <$> handleCollision fuel (set_m_state st c)) /\
  (forall c', onStateChanged fuel st c = Some c' -> state c' = st).
Proof.
  split_and!.
  - intros Hst. unfold onStateChanged. by rewrite bool_decide_eq_true_2.
  - intros Hst Hnc. unfold onStateChanged. rewrite bool_decide_eq_false_2 by done.
    by destruct st.
  - intros Hst ->. unfold onStateChanged. by rewrite bool_decide_eq_false_2.
  - intros c'. unfold onStateChanged. case_bool_decide as Hst.
    + by intros [= <-].
    + assert (m_state (self (set_m_state st c)) = st) as -> by done.
      destruct st; try (intros [= <-]; done).
      rewrite handleCollision_unfold.
      destruct (registerService _ _ _ _ _ _ _ _) as [[r c2]|] eqn:Hreg; [|done].
      intros [= <-]. apply registerService_fixedPart in Hreg.
      destruct (resetService_frame false
                  (set_m_state QtAvahiServiceStateCollision c)) as (Hfix & _).
      rewrite Hfix in Hreg. unfold fixedPart in Hreg.
      by injection Hreg as Hst' _ _ _.
Qed.

(** C6, amended.  A register that returns true leaves the timer running and
    the cached state as it was, whatever that state is; and delivering a
    state other than [Collision] sets the cached state and leaves the timer
    as it is. *)
Theorem timer_independent_of_state fuel c :
  (forall n h p t x silent c',
     registerService fuel n h p t x silent c = Some (true, c') ->
     isActive (timer c') = true /\ state c' = state c) /\
  (forall st, st <> QtAvahiServiceStateCollision ->
     exists c', onStateChanged fuel st c = Some c' /\
                timer c' = timer c /\ state c' = st).
Proof.
  split.
  - intros n h p t x silent c' H.
    pose proof (registerService_fixedPart _ _ _ _ _ _ _ _ _ _ H) as Hfix.
    apply registerService_true in H as (_ & _ & Ht).
    split; [by rewrite Ht|].
    unfold fixedPart in Hfix. by injection Hfix as Hst _ _ _.
  - intros st Hnc. unfold onStateChanged. case_bool_decide as Hst.
    + by exists c.
    + exists (set_m_state st c). by destruct st.
Qed.

(** C7.  In a configuration reached from a new object, a register that
    returns true leaves the timer single-shot, with an interval of 60000 ms
    and the whole interval to run, whatever time was left before; and the
    timeout of the running timer does [resetService(true)] and then
    [registerService] with the cached name, address, port, type and
    metadata, and silent. *)
Theorem registerService_restarts_timer m w c :
  reachable m w c ->
  (forall fuel n h p t x silent c',
     registerService fuel n h p t x silent c = Some (true, c') ->
     timer c' = {| interval := 60000; singleShot := true; remaining := Some 60000 |}) /\
  (forall fuel r, remaining (timer c) = Some r ->
     deliver fuel Timeout c =
       snd <$> registerService fuel (m_name (self c)) (m_hostAddress (self c))
                 (m_port (self c)) (m_serviceType (self c)) (m_txtRecords (self c))
                 true (resetService true (with_timer QTimer_stop c))).
Proof.
  intros Hreach. destruct (reachable_timer_settings _ _ _ Hreach) as [Hi Hs].
  split.
  - intros fuel n h p t x silent c' H.
    apply registerService_true in H as (_ & _ & ->).
    unfold QTimer_start. by rewrite Hi, Hs.
  - intros fuel r Hr. simpl. rewrite Hr. unfold onReregisterTimeout.
    assert (with_timer QTimer_fired c = with_timer QTimer_stop c) as ->.
    { unfold with_timer, QTimer_fired. unfold timer in Hs. by rewrite Hs. }
    destruct (resetService_frame true (with_timer QTimer_stop c)) as (_ & Hm & _).
    unfold cachedValues in Hm. injection Hm as -> -> -> -> ->. done.
Qed.

(** C8.  When the client does not run, [registerService] returns false and
    the whole configuration, object and outside world, is the one it was
    called in. *)
Theorem registerService_client_not_running fuel n h p t x silent c :
  clientRunning c = false ->
  registerService (S fuel) n h p t x silent c = Some (false, c).
Proof. intros Hrun. by rewrite registerService_S, Hrun. Qed.

(** C9.  Without a group [resetService] changes nothing.  With a group it
    clears the TXT list, resets the group at the discovery layer, stops the
    timer, and keeps the group handle and the recorded error.  A second
    call leaves the object as the first did, asks the discovery layer to
    reset the group once more, and so leaves the same configuration when
    resetting a group is idempotent there. *)
Theorem resetService_idempotent silent silent' c :
  (group c = None -> resetService silent c = c) /\
  (forall g, group c = Some g ->
     serviceList (resetService silent c) = None /\
     remaining (timer (resetService silent c)) = None /\
     world (resetService silent c) = avahi_entry_group_reset (world c) (Some g) /\
     group (resetService silent c) = Some g /\
     error (resetService silent c) = error c) /\
  self (resetService silent' (resetService silent c)) = self (resetService silent c) /\
  (forall g, group c = Some g ->
     world (resetService silent' (resetService silent c)) =
       avahi_entry_group_reset (avahi_entry_group_reset (world c) (Some g)) (Some g)) /\
  ((forall w g, avahi_entry_group_reset (avahi_entry_group_reset w g) g
                = avahi_entry_group_reset w g) ->
   resetService silent' (resetService silent c) = resetService silent c).
Proof.
  split_and!.
  - apply resetService_no_group.
  - intros g Hg. by rewrite (resetService_group silent c g Hg).
  - destruct (group c) as [g|] eqn:Hg.
    + rewrite (resetService_group silent c g Hg).
      by rewrite (resetService_group silent' _ g).
    + rewrite (resetService_no_group silent c Hg).
      by rewrite (resetService_no_group silent' c Hg).
  - intros g Hg. rewrite (resetService_group silent c g Hg).
    by rewrite (resetService_group silent' _ g).
  - intros Hidem. destruct (group c) as [g|] eqn:Hg.
    + rewrite (resetService_group silent c g Hg).
      rewrite (resetService_group silent' _ g) by done.
      simpl. unfold with_timer, set_world; simpl. by rewrite Hidem.
    + rewrite (resetService_no_group silent c Hg).
      by rewrite (resetService_no_group silent' c Hg).
Qed.

(** C10.  A register made while the client runs writes both copies of the
    values before anything else is checked.  Whatever it returns, the
    address, port, type and metadata of both copies are then those of the
    call, and the name is the name of the call, or an alternative derived
    from it when collisions were handled.  When the group is not empty or
    add-service reports anything but a collision, the call returns with one
    unit of fuel and both copies hold exactly the values of the call. *)
Theorem registerService_caches_values fuel n h p t x silent c :
  clientRunning c = true ->
  let c0 := cacheValues n h p t x c in
  cachedValues c0 = (n, h, p, t, x) /\
  privateValues c0 = (n, h, p, t, x) /\
  (forall r c', registerService fuel n h p t x silent c = Some (r, c') ->
     exists k : nat,
       cachedValues c' = (Nat.iter k alternativeServiceName n, h, p, t, x) /\
       privateValues c' = (Nat.iter k alternativeServiceName n, h, p, t, x)) /\
  (avahi_entry_group_is_empty (world c0) (group c0) = false \/
   error (addService h x c0) <> AVAHI_ERR_COLLISION ->
   exists r c',
     registerService (S fuel) n h p t x silent c = Some (r, c') /\
     cachedValues c' = (n, h, p, t, x) /\
     privateValues c' = (n, h, p, t, x)).
Proof.
  intros Hrun c0. subst c0.
  destruct (cacheValues_values n h p t x c) as [Hm Hd].
  split_and!; try done.
  - intros r c' H. by apply (registerService_values _ _ _ _ _ _ _ _ _ _ Hrun H).
  - intros Hno. by apply registerService_no_collision.
Qed.

End Claims.

(** * The claims on the small host and daemon *)

(** C2, amended, at the second register on the small host. *)
Lemma registerService_failed_witness :
  registerService 1 "printer2" Sim.bind 9100 "_ipp._tcp" Sim.office false Sim.registered
    = Some (false, Sim.rejected) /\
  state Sim.rejected = state Sim.registered /\
  errorString Sim.rejected <> "".
Proof.
  split; [exact Sim_register_twice|].
  destruct (registerService_failed (P := Sim.platform) 1 "printer2" Sim.bind 9100 "_ipp._tcp" Sim.office
              false Sim.registered Sim.rejected
              Sim_strerror_nonempty Sim_register_twice) as (Hst & Hstr & _).
  split; [exact Hst | exact Hstr].
Defined.

(** C5 at the delivery of [Established] to the registered service. *)
Lemma onStateChanged_cases_witness :
  state Sim.registered <> QtAvahiServiceStateEstablished /\
  onStateChanged 1 QtAvahiServiceStateEstablished Sim.registered
    = Some (set_m_state QtAvahiServiceStateEstablished Sim.registered).
Proof.
  assert (state Sim.registered <> QtAvahiServiceStateEstablished) as Hst.
  { vm_compute. discriminate. }
  split; [exact Hst|].
  destruct (onStateChanged_cases (P := Sim.platform) 1 QtAvahiServiceStateEstablished Sim.registered)
    as (_ & Hother & _).
  apply Hother; [exact Hst | discriminate].
Defined.

(** C6, amended, at the first register of a new object. *)
Lemma timer_independent_of_state_witness :
  registerService 1 "printer" Sim.bind 9100 "_ipp._tcp" Sim.office false Sim.fresh
    = Some (true, Sim.registered) /\
  isActive (timer Sim.registered) = true /\
  state Sim.registered = state Sim.fresh.
Proof.
  split; [exact Sim_register_fresh|].
  destruct (timer_independent_of_state (P := Sim.platform) 1 Sim.fresh) as (Hreg & _).
  exact (Hreg _ _ _ _ _ _ _ Sim_register_fresh).
Defined.

(** C7 at the first register of a new object. *)
Lemma registerService_restarts_timer_witness :
  reachable (Some (ClientAt 1)) Sim.host Sim.fresh /\
  timer Sim.registered =
    {| interval := 60000; singleShot := true; remaining := Some 60000 |}.
Proof.
  split; [exact (reachable_new _ _)|].
  destruct (registerService_restarts_timer (P := Sim.platform) (Some (ClientAt 1)) Sim.host Sim.fresh
              (reachable_new _ _)) as (Hreg & _).
  exact (Hreg _ _ _ _ _ _ _ _ Sim_register_fresh).
Defined.

(** C8 at a register while the client is not connected. *)
Lemma registerService_client_not_running_witness :
  clientRunning Sim.unconnected = false /\
  registerService 1 "printer" Sim.bind 9100 "_ipp._tcp" Sim.office false Sim.unconnected
    = Some (false, Sim.unconnected).
Proof.
  assert (clientRunning Sim.unconnected = false) as Hrun.
  { vm_compute. reflexivity. }
  split; [exact Hrun|].
  exact (registerService_client_not_running (P := Sim.platform) 0 "printer" Sim.bind 9100 "_ipp._tcp"
           Sim.office false Sim.unconnected Hrun).
Defined.

(** C9 at two resets of the registered service. *)
Lemma resetService_idempotent_witness :
  resetService true (resetService false Sim.registered)
    = resetService false Sim.registered.
Proof.
  destruct (resetService_idempotent (P := Sim.platform) false true Sim.registered)
    as (_ & _ & _ & _ & Hidem).
  apply Hidem. exact Sim_reset_idempotent.
Defined.

(** C10 at the first register of a new object. *)
Lemma registerService_caches_values_witness :
  clientRunning Sim.fresh = true /\
  cachedValues (cacheValues "printer" Sim.bind 9100 "_ipp._tcp" Sim.office Sim.fresh)
    = ("printer", Sim.bind, 9100, "_ipp._tcp", Sim.office).
Proof.
  assert (clientRunning Sim.fresh = true) as Hrun.
  { vm_compute. reflexivity. }
  split; [exact Hrun|].
  destruct (registerService_caches_values (P := Sim.platform) 1 "printer" Sim.bind 9100 "_ipp._tcp"
              Sim.office false Sim.fresh Hrun) as (Hm & _).
  exact Hm.
Defined.

(** * Further facts about the methods *)

(** Case analysis of one call of [registerService], as in the section
    above. *)
Ltac register_cases H IH :=
  rewrite registerService_S in H;
  destruct (clientRunning _) eqn:Hrun; simpl in H;
  [ destruct (avahi_entry_group_is_empty _ _) eqn:Hempty;
    [ case_bool_decide as Herr;
      [ case_bool_decide as Hcoll;
        [ destruct (handleCollision _ _) as [[[] ?c2]|] eqn:Hretry;
          [ | | discriminate H ]
        | ]
      | ]
    | ]
  | ].

Section MoreFacts.

Context `{P : Platform}.

Implicit Types (c : Config) (fuel : nat) (silent : bool).

Lemma cacheValues_group n h p t x c g :
  group c = Some g -> group (cacheValues n h p t x c) = Some g.
Proof.
  intros Hg. unfold cacheValues, createGroupIfUnset.
  change (group (set_d_descriptor n h p t x (set_m_descriptor n h p t x c)))
    with (group c).
  by rewrite Hg.
Qed.

Lemma cacheValues_timer n h p t x c :
  timer (cacheValues n h p t x c) = timer c.
Proof.
  unfold cacheValues, createGroupIfUnset.
  change (group (set_d_descriptor n h p t x (set_m_descriptor n h p t x c)))
    with (group c).
  destruct (group c); [done|].
  by destruct (avahi_entry_group_new _ _).
Qed.

Lemma cacheValues_group_created n h p t x c :
  (forall w cl, (avahi_entry_group_new w cl).2 <> None) ->
  group (cacheValues n h p t x c) <> None.
Proof.
  intros Hnew. unfold cacheValues, createGroupIfUnset.
  change (group (set_d_descriptor n h p t x (set_m_descriptor n h p t x c)))
    with (group c).
  destruct (group c) as [g|] eqn:Hg.
  - change (group (set_d_descriptor n h p t x (set_m_descriptor n h p t x c)))
      with (group c). by rewrite Hg.
  - pose proof (Hnew (world (set_d_descriptor n h p t x (set_m_descriptor n h p t x c)))
                  (d_client (d_ptr (self (set_d_descriptor n h p t x
                                            (set_m_descriptor n h p t x c)))))) as Hn.
    by destruct (avahi_entry_group_new _ _).
Qed.

(** The group handle of a call survives it. *)
Lemma registerService_group fuel : forall n h p t x silent c r c' g,
  group c = Some g ->
  registerService fuel n h p t x silent c = Some (r, c') ->
  group c' = Some g.
Proof.
  induction fuel as [|fuel IH]; intros n h p t x silent c r c' g Hg H; [done|].
  pose proof (cacheValues_group n h p t x c g Hg) as H0.
  destruct (addService_frame h x (cacheValues n h p t x c)) as (_ & _ & _ & H1 & _).
  destruct (resetService_frame false (addService h x (cacheValues n h p t x c)))
    as (_ & _ & _ & H2 & _).
  assert (forall b c2,
    handleCollision fuel (addService h x (cacheValues n h p t x c)) = Some (b, c2) ->
    group c2 = Some g) as Hretry_group.
  { intros b c2 Hretry. rewrite handleCollision_unfold in Hretry.
    apply (IH _ _ _ _ _ _ _ _ _ g) in Hretry; [done|]. congruence. }
  register_cases H IH.
  - apply commitService_inv in H as (_ & _ & _ & H3 & _).
    rewrite H3. by apply (Hretry_group true).
  - injection H as <- <-. by apply (Hretry_group false).
  - injection H as <- <-. congruence.
  - apply commitService_inv in H as (_ & _ & _ & H3 & _). congruence.
  - by injection H as <- <-.
  - by injection H as <- <-.
Qed.

(** A call that passes the client check leaves a group, when creating a
    group never gives a null pointer. *)
Lemma registerService_group_created fuel n h p t x silent c r c' :
  (forall w cl, (avahi_entry_group_new w cl).2 <> None) ->
  clientRunning c = true ->
  registerService fuel n h p t x silent c = Some (r, c') ->
  group c' <> None.
Proof.
  intros Hnew Hr H.
  pose proof (cacheValues_group_created n h p t x c Hnew) as H0.
  destruct (group (cacheValues n h p t x c)) as [g|] eqn:Hg; [|done].
  destruct (addService_frame h x (cacheValues n h p t x c)) as (_ & _ & _ & H1 & _).
  destruct (resetService_frame false (addService h x (cacheValues n h p t x c)))
    as (_ & _ & _ & H2 & _).
  destruct fuel as [|fuel]; [done|].
  assert (forall b c2,
    handleCollision fuel (addService h x (cacheValues n h p t x c)) = Some (b, c2) ->
    group c2 = Some g) as Hretry_group.
  { intros b c2 Hretry. rewrite handleCollision_unfold in Hretry.
    apply (registerService_group _ _ _ _ _ _ _ _ _ _ g) in Hretry; [done|].
    congruence. }
  clear H0. register_cases H IH.
  - apply commitService_inv in H as (_ & _ & _ & H3 & _).
    rewrite H3, (Hretry_group _ _ eq_refl); done.
  - injection H as <- <-. by rewrite (Hretry_group _ _ eq_refl).
  - injection H as <- <-. congruence.
  - apply commitService_inv in H as (_ & _ & _ & H3 & _). congruence.
  - injection H as <- <-. congruence.
  - done.
Qed.

Lemma updateTxtRecord_group_case x c g :
  group c = Some g ->
  exists l w e,
    (updateTxtRecord x c).2 =
    set_error e (set_world w (set_serviceList l (set_m_txtRecords x c))).
Proof.
  intros Hg. unfold updateTxtRecord. rewrite Hg. cbv zeta.
  destruct (avahi_entry_group_update_service_txt_strlst _ _ _ _ _ _ _) as [w e].
  case_bool_decide; by eexists _, _, _.
Qed.

Lemma handleCollision_frame fuel c r c' :
  handleCollision fuel c = Some (r, c') ->
  fixedPart c' = fixedPart c.
Proof.
  rewrite handleCollision_unfold. intros H.
  apply registerService_fixedPart in H.
  destruct (resetService_frame false c) as (Hfix & _). congruence.
Qed.

Lemma values_carried c c' :
  cachedValues c' = cachedValues c ->
  privateValues c' = privateValues c ->
  valuesAgree c -> valuesAgree c'.
Proof.
  unfold cachedValues, privateValues, valuesAgree.
  intros [= -> -> -> -> _] [= -> -> -> -> _]. done.
Qed.

Lemma registerService_valuesAgree fuel n h p t x silent c r c' :
  valuesAgree c ->
  registerService fuel n h p t x silent c = Some (r, c') ->
  valuesAgree c'.
Proof.
  intros Hagree H. destruct (clientRunning c) eqn:Hrun.
  - destruct (registerService_values _ _ _ _ _ _ _ _ _ _ Hrun H) as (k & Hm & Hd).
    unfold cachedValues in Hm. unfold privateValues in Hd. unfold valuesAgree.
    injection Hm as -> -> -> -> _. by injection Hd as -> -> -> -> _.
  - by destruct (registerService_not_running _ _ _ _ _ _ _ _ _ _ Hrun H) as [_ ->].
Qed.

Lemma registerService_timerHasGroup fuel n h p t x silent c r c' :
  (forall w cl, (avahi_entry_group_new w cl).2 <> None) ->
  timerHasGroup c ->
  registerService fuel n h p t x silent c = Some (r, c') ->
  timerHasGroup c'.
Proof.
  intros Hnew Hinv H. destruct (clientRunning c) eqn:Hrun.
  - intros _. by apply (registerService_group_created _ _ _ _ _ _ _ _ _ _ Hnew Hrun H).
  - by destruct (registerService_not_running _ _ _ _ _ _ _ _ _ _ Hrun H) as [_ ->].
Qed.

Lemma resetService_timerHasGroup silent c :
  timerHasGroup c -> timerHasGroup (resetService silent c).
Proof.
  intros Hinv. destruct (group c) as [g|] eqn:Hg.
  - rewrite (resetService_group silent c g Hg). by intros Hactive.
  - by rewrite (resetService_no_group silent c Hg).
Qed.

Lemma deliver_timerHasGroup fuel e c c' :
  (forall w cl, (avahi_entry_group_new w cl).2 <> None) ->
  timerHasGroup c ->
  deliver fuel e c = Some c' ->
  timerHasGroup c'.
Proof.
  intros Hnew Hinv. destruct e as [n h p t x| |x|st| |msec|w]; simpl.
  - destruct (registerService _ _ _ _ _ _ _ _) as [[r c2]|] eqn:Hreg; [|done].
    intros [= <-]. by apply (registerService_timerHasGroup _ _ _ _ _ _ _ _ _ _ Hnew Hinv Hreg).
  - intros [= <-]. by apply resetService_timerHasGroup.
  - intros [= <-]. destruct (updateTxtRecord_frame x c) as (_ & _ & Hg & Ht).
    unfold timerHasGroup. by rewrite Hg, Ht.
  - unfold onStateChanged. case_bool_decide; [intros [= <-]; done|].
    assert (m_state (self (set_m_state st c)) = st) as -> by done.
    assert (timerHasGroup (set_m_state st c)) as Hinv' by exact Hinv.
    destruct st; try (intros [= <-]; done).
    rewrite handleCollision_unfold.
    destruct (registerService _ _ _ _ _ _ _ _) as [[r c2]|] eqn:Hreg; [|done].
    intros [= <-]. apply (registerService_timerHasGroup _ _ _ _ _ _ _ _ _ _ Hnew) in Hreg;
      [done|]. by apply resetService_timerHasGroup.
  - destruct (remaining (timer c)) as [r|] eqn:Hr; [|done].
    unfold onReregisterTimeout.
    destruct (registerService _ _ _ _ _ _ _ _) as [[b c2]|] eqn:Hreg; [|done].
    intros [= <-]. apply (registerService_timerHasGroup _ _ _ _ _ _ _ _ _ _ Hnew) in Hreg;
      [done|]. apply resetService_timerHasGroup.
    intros _. change (group (with_timer QTimer_fired c)) with (group c).
    apply Hinv. unfold isActive. by rewrite Hr.
  - destruct (remaining (timer c)) as [r|] eqn:Hr; case_bool_decide; try done;
      intros [= <-]; [|done].
    intros _. apply Hinv. unfold isActive. by rewrite Hr.
  - intros [= <-]. exact Hinv.
Qed.

Lemma reachable_timerHasGroup m w c :
  (forall w cl, (avahi_entry_group_new w cl).2 <> None) ->
  reachable m w c -> timerHasGroup c.
Proof.
  intros Hnew. induction 1 as [|fuel e c c' _ IH Hstep].
  - intros Hactive. discriminate Hactive.
  - by apply (deliver_timerHasGroup fuel e c c' Hnew IH).
Qed.

(** The answer of [avahi_alternative_service_name] is not checked: a null
    pointer makes the alternative name the empty string. *)
Lemma alternativeServiceName_null (n : QString) :
  avahi_alternative_service_name (data (toStdString n)) = None ->
  alternativeServiceName n = EmptyString.
Proof. unfold alternativeServiceName. by intros ->. Qed.

(** After an [updateTxtRecord] the retry of [handleCollision] still takes
    the metadata from before the update. *)
Lemma handleCollision_after_updateTxtRecord fuel x c :
  handleCollision fuel (updateTxtRecord x c).2 =
  registerService fuel (alternativeServiceName (name c)) (hostAddress c) (port c)
    (serviceType c) (txtRecords c) false
    (resetService false (updateTxtRecord x c).2).
Proof.
  rewrite handleCollision_unfold.
  destruct (updateTxtRecord_frame x c) as (_ & Hd & _).
  unfold privateValues in Hd. injection Hd as Hn Hh Hp Ht Hx.
  by rewrite Hn, Hh, Hp, Ht, Hx.
Qed.

End MoreFacts.

(** * Further properties of the code *)

Lemma data_noNul (s : string) : noNul (data s) = true.
Proof.
  induction s as [|a s IH]; simpl; [done|].
  destruct (N_of_ascii a =? 0)%N eqn:Ha; simpl; [done|]. by rewrite Ha.
Qed.

Lemma data_of_noNul (s : string) : noNul s = true -> data s = s.
Proof.
  induction s as [|a s IH]; simpl; [done|].
  destruct (N_of_ascii a =? 0)%N; simpl; [done|]. intros Hs. by rewrite IH.
Qed.

Lemma data_idempotent (s : string) : data (data s) = data s.
Proof. apply data_of_noNul, data_noNul. Qed.

Lemma utf8_of_latin1_cons (a : ascii) (r : string) :
  utf8_of_latin1 a +:+ r =
  if (N_of_ascii a <? 128)%N then String a r
  else String (ascii_of_N (192 + N_of_ascii a / 64))
         (String (ascii_of_N (128 + N_of_ascii a mod 64)) r).
Proof. unfold utf8_of_latin1. by destruct (N_of_ascii a <? 128)%N. Qed.

Lemma utf8_bytes_not_nul (a : ascii) :
  (N_of_ascii (ascii_of_N (192 + N_of_ascii a / 64)) =? 0)%N = false /\
  (N_of_ascii (ascii_of_N (128 + N_of_ascii a mod 64)) =? 0)%N = false.
Proof.
  pose proof (N_ascii_bounded a) as Hb.
  assert (N_of_ascii a / 64 < 4)%N as Hq by (apply N.Div0.div_lt_upper_bound; lia).
  assert (N_of_ascii a mod 64 < 64)%N as Hm by (apply N.mod_lt; lia).
  rewrite !N_ascii_embedding by lia.
  generalize dependent (N_of_ascii a / 64)%N. intros q Hq.
  generalize dependent (N_of_ascii a mod 64)%N. intros r Hr.
  split; apply N.eqb_neq; lia.
Qed.

Lemma toStdString_noNul (s : QString) :
  noNul s = true -> noNul (toStdString s) = true.
Proof.
  induction s as [|a s IH]; simpl; [done|].
  intros [Ha Hs]%andb_prop. rewrite utf8_of_latin1_cons.
  destruct (utf8_bytes_not_nul a) as [H1 H2].
  destruct (N_of_ascii a <? 128)%N; simpl.
  - by rewrite Ha, IH.
  - by rewrite H1, H2, IH.
Qed.

Lemma toStdString_fixed (s : QString) :
  toStdString s = s -> noNul s = true -> isAsciiCString s = true.
Proof.
  induction s as [|a s IH]; simpl; [done|].
  rewrite utf8_of_latin1_cons. intros Heq [Ha Hs]%andb_prop.
  destruct (N_of_ascii a <? 128)%N eqn:H7.
  - injection Heq as Heq. by rewrite Ha, IH.
  - injection Heq as _ Heq. apply (f_equal String.length) in Heq. simpl in Heq.
    pose proof (toStdString_length s). lia.
Qed.

Lemma toStdString_of_ascii (s : QString) :
  isAsciiCString s = true -> data (toStdString s) = s.
Proof.
  induction s as [|a s IH]; simpl; [done|].
  intros [[Ha H7]%andb_prop Hs]%andb_prop.
  rewrite utf8_of_latin1_cons, H7. simpl.
  apply negb_true_iff in Ha. by rewrite Ha, IH.
Qed.

(** X11.  The C string that [handleCollision] hands to
    [avahi_alternative_service_name], [name().toStdString().data()], is the
    name itself exactly when all characters of the name are from 1 to 127;
    and exactly then reading that C string back with [QLatin1String] gives
    the name. *)
Theorem toStdString_QLatin1String_roundtrip (s : QString) :
  (data (toStdString s) = s <-> isAsciiCString s = true) /\
  (QLatin1String (Some (data (toStdString s))) = s <-> isAsciiCString s = true).
Proof.
  assert (data (toStdString s) = s <-> isAsciiCString s = true) as Hiff.
  { split; [|apply toStdString_of_ascii].
    intros Heq.
    assert (noNul s = true) as Hs by (rewrite <- Heq; apply data_noNul).
    apply toStdString_fixed; [|done].
    by rewrite <- (data_of_noNul _ (toStdString_noNul s Hs)). }
  split; [exact Hiff|].
  simpl. by rewrite data_idempotent.
Qed.

Section Extras.

Context `{P : Platform}.

Implicit Types (c : Config) (fuel : nat) (silent : bool).

(** X1.  For an address other than 0.0.0.0 the loops give the index of the
    last interface, in the order of [allInterfaces], that has a matching
    address entry, and [AVAHI_IF_UNSPEC] when there is none. *)
Theorem resolveIfIndex_last_match w h :
  h <> QHostAddress_of "0.0.0.0" ->
  resolveIfIndex w h = firstMatchingIndex h (rev (allInterfaces w)) /\
  (existsb (interfaceMatches h) (allInterfaces w) = false ->
   resolveIfIndex w h = AVAHI_IF_UNSPEC).
Proof.
  intros Hh. split.
  - unfold resolveIfIndex. rewrite bool_decide_eq_true_2 by done.
    apply scanInterfaces_last.
  - apply resolveIfIndex_no_match.
Qed.

(** X2.  When all the interfaces that match an address carry one index, as
    when at most one interface is on its subnet, the loops give the index of
    the first match. *)
Theorem resolveIfIndex_first_when_unique w h :
  (forall i j, In i (allInterfaces w) -> In j (allInterfaces w) ->
     interfaceMatches h i = true -> interfaceMatches h j = true ->
     index i = index j) ->
  resolveIfIndex w h = specIfIndex w h.
Proof.
  intros Huniq. unfold resolveIfIndex, specIfIndex.
  case_bool_decide as Hh.
  - rewrite bool_decide_eq_false_2 by done.
    by apply scanInterfaces_first_when_unique.
  - rewrite bool_decide_eq_true_2; [done|].
    by destruct (decide (h = QHostAddress_of "0.0.0.0")).
Qed.

(** X3.  Once the object has a group handle, every method call, callback
    and timeout leaves it the same handle. *)
Theorem deliver_keeps_group fuel e c c' g :
  group c = Some g ->
  deliver fuel e c = Some c' ->
  group c' = Some g.
Proof.
  intros Hg. destruct e as [n h p t x| |x|st| |msec|w]; simpl.
  - destruct (registerService _ _ _ _ _ _ _ _) as [[r c2]|] eqn:Hreg; [|done].
    intros [= <-]. by apply (registerService_group _ _ _ _ _ _ _ _ _ _ g Hg Hreg).
  - intros [= <-]. destruct (resetService_frame false c) as (_ & _ & _ & Hr & _).
    congruence.
  - intros [= <-]. destruct (updateTxtRecord_frame x c) as (_ & _ & Hu & _).
    congruence.
  - unfold onStateChanged. case_bool_decide; [intros [= <-]; done|].
    assert (m_state (self (set_m_state st c)) = st) as -> by done.
    destruct st; try (intros [= <-]; done).
    rewrite handleCollision_unfold.
    destruct (registerService _ _ _ _ _ _ _ _) as [[r c2]|] eqn:Hreg; [|done].
    intros [= <-]. apply (registerService_group _ _ _ _ _ _ _ _ _ _ g) in Hreg; [done|].
    destruct (resetService_frame false (set_m_state QtAvahiServiceStateCollision c))
      as (_ & _ & _ & Hr & _).
    rewrite Hr. exact Hg.
  - destruct (remaining (timer c)) as [r|] eqn:Hr; [|done].
    unfold onReregisterTimeout.
    destruct (registerService _ _ _ _ _ _ _ _) as [[b c2]|] eqn:Hreg; [|done].
    intros [= <-]. apply (registerService_group _ _ _ _ _ _ _ _ _ _ g) in Hreg; [done|].
    destruct (resetService_frame true (with_timer QTimer_fired c))
      as (_ & _ & _ & Hrs & _).
    rewrite Hrs. exact Hg.
  - destruct (remaining (timer c)) as [r|]; case_bool_decide; try done;
      intros [= <-]; exact Hg.
  - intros [= <-]. exact Hg.
Qed.

(** X4.  Only the state callback writes the cached state: a method call, a
    timeout, time passing or a change of the outside world leaves it as it
    was. *)
Theorem deliver_keeps_state fuel e c c' :
  (forall st, e <> Callback st) ->
  deliver fuel e c = Some c' ->
  state c' = state c.
Proof.
  intros Hne. destruct e as [n h p t x| |x|st| |msec|w]; simpl.
  - destruct (registerService _ _ _ _ _ _ _ _) as [[r c2]|] eqn:Hreg; [|done].
    intros [= <-]. apply registerService_fixedPart in Hreg.
    unfold fixedPart in Hreg. by injection Hreg as Hst _ _ _.
  - intros [= <-]. destruct (resetService_frame false c) as (Hfix & _).
    unfold fixedPart in Hfix. by injection Hfix as Hst _ _ _.
  - intros [= <-]. destruct (updateTxtRecord_frame x c) as (Hfix & _).
    unfold fixedPart in Hfix. by injection Hfix as Hst _ _ _.
  - by destruct (Hne st).
  - destruct (remaining (timer c)) as [r|] eqn:Hr; [|done].
    unfold onReregisterTimeout.
    destruct (registerService _ _ _ _ _ _ _ _) as [[b c2]|] eqn:Hreg; [|done].
    intros [= <-]. apply registerService_fixedPart in Hreg.
    destruct (resetService_frame true (with_timer QTimer_fired c)) as (Hfix & _).
    rewrite Hfix in Hreg. unfold fixedPart in Hreg.
    by injection Hreg as Hst _ _ _.
  - destruct (remaining (timer c)) as [r|]; case_bool_decide; try done;
      intros [= <-]; done.
  - intros [= <-]. done.
Qed.

(** X5.  When the members and the private copy hold the same name, address,
    port and type, they still do after any method call, callback or
    timeout: only the metadata of the two copies can come apart. *)
Theorem deliver_keeps_valuesAgree fuel e c c' :
  valuesAgree c ->
  deliver fuel e c = Some c' ->
  valuesAgree c'.
Proof.
  intros Hagree. destruct e as [n h p t x| |x|st| |msec|w]; simpl.
  - destruct (registerService _ _ _ _ _ _ _ _) as [[r c2]|] eqn:Hreg; [|done].
    intros [= <-]. by apply (registerService_valuesAgree _ _ _ _ _ _ _ _ _ _ Hagree Hreg).
  - intros [= <-]. destruct (resetService_frame false c) as (_ & Hm & Hd & _).
    by apply (values_carried c).
  - intros [= <-]. destruct (group c) as [g|] eqn:Hg.
    + destruct (updateTxtRecord_group_case x c g Hg) as (l & w & e & ->).
      exact Hagree.
    + by rewrite (updateTxtRecord_no_group x c Hg).
  - unfold onStateChanged. case_bool_decide; [intros [= <-]; done|].
    assert (m_state (self (set_m_state st c)) = st) as -> by done.
    assert (valuesAgree (set_m_state st c)) as Hagree' by exact Hagree.
    destruct st; try (intros [= <-]; done).
    rewrite handleCollision_unfold.
    destruct (registerService _ _ _ _ _ _ _ _) as [[r c2]|] eqn:Hreg; [|done].
    intros [= <-]. apply registerService_valuesAgree in Hreg; [done|].
    destruct (resetService_frame false (set_m_state QtAvahiServiceStateCollision c))
      as (_ & Hm & Hd & _).
    by apply (values_carried (set_m_state QtAvahiServiceStateCollision c)).
  - destruct (remaining (timer c)) as [r|] eqn:Hr; [|done].
    unfold onReregisterTimeout.
    destruct (registerService _ _ _ _ _ _ _ _) as [[b c2]|] eqn:Hreg; [|done].
    intros [= <-]. apply registerService_valuesAgree in Hreg; [done|].
    destruct (resetService_frame true (with_timer QTimer_fired c))
      as (_ & Hm & Hd & _).
    apply (values_carried (with_timer QTimer_fired c)); [done..|]. exact Hagree.
  - destruct (remaining (timer c)) as [r|]; case_bool_decide; try done;
      intros [= <-]; exact Hagree.
  - intros [= <-]. exact Hagree.
Qed.

(** X6.  When creating a group never gives a null pointer, a register that
    returns true leaves a group and no recorded error: [isValid] is
    true. *)
Theorem registerService_true_isValid fuel n h p t x silent c c' :
  (forall w cl, (avahi_entry_group_new w cl).2 <> None) ->
  registerService fuel n h p t x silent c = Some (true, c') ->
  group c' <> None /\ error c' = 0 /\ isValid c' = true.
Proof.
  intros Hnew H.
  destruct (registerService_true _ _ _ _ _ _ _ _ _ H) as (Hrun & He & _).
  pose proof (registerService_group_created _ _ _ _ _ _ _ _ _ _ Hnew Hrun H) as Hg.
  split_and!; try done.
  unfold isValid. destruct (group c'); [|done]. by apply bool_decide_eq_true_2.
Qed.

(** X7.  When creating a group never gives a null pointer, the timer of a
    configuration reached from a new object runs only while the object has
    a group, so [resetService] always leaves the timer stopped. *)
Theorem resetService_stops_timer m w c silent :
  (forall w cl, (avahi_entry_group_new w cl).2 <> None) ->
  reachable m w c ->
  (isActive (timer c) = true -> group c <> None) /\
  isActive (timer (resetService silent c)) = false.
Proof.
  intros Hnew Hreach.
  pose proof (reachable_timerHasGroup m w c Hnew Hreach) as Hinv.
  split; [exact Hinv|].
  destruct (group c) as [g|] eqn:Hg.
  - by rewrite (resetService_group silent c g Hg).
  - rewrite (resetService_no_group silent c Hg).
    destruct (isActive (timer c)) eqn:Hactive; [|done].
    destruct (Hinv Hactive). exact Hg.
Qed.

(** X8.  [updateTxtRecord] never writes what [name], [hostAddress], [port],
    [serviceType] and [txtRecords] return, nor the group handle, the timer
    or the cached state; and with a group it writes the member
    [m_txtRecords] whether the discovery layer accepts the update or
    not. *)
Theorem updateTxtRecord_writes x c :
  privateValues (updateTxtRecord x c).2 = privateValues c /\
  group (updateTxtRecord x c).2 = group c /\
  timer (updateTxtRecord x c).2 = timer c /\
  state (updateTxtRecord x c).2 = state c /\
  (group c <> None -> m_txtRecords (self (updateTxtRecord x c).2) = x) /\
  (group c = None -> updateTxtRecord x c = (false, c)).
Proof.
  destruct (updateTxtRecord_frame x c) as (Hfix & Hd & Hg & Ht).
  split_and!; try done.
  - unfold fixedPart in Hfix. by injection Hfix as Hst _ _ _.
  - apply updateTxtRecord_cached.
  - apply updateTxtRecord_no_group.
Qed.

(** X9.  A register can return false and leave the timer running: when
    add-service reports a collision, the retry under the alternative name
    succeeds, and the commit that [registerService] then issues once more
    is refused.  The service of the retry stays committed. *)
Theorem registerService_false_after_retry fuel n h p t x silent c c2 :
  clientRunning c = true ->
  avahi_entry_group_is_empty (world (cacheValues n h p t x c))
    (group (cacheValues n h p t x c)) = true ->
  error (addService h x (cacheValues n h p t x c)) = AVAHI_ERR_COLLISION ->
  handleCollision fuel (addService h x (cacheValues n h p t x c)) = Some (true, c2) ->
  (avahi_entry_group_commit (world c2) (group c2)).2 <> 0 ->
  exists c',
    registerService (S fuel) n h p t x silent c = Some (false, c') /\
    isActive (timer c') = true /\
    world c' = (avahi_entry_group_commit (world c2) (group c2)).1.
Proof.
  intros Hrun Hempty Hcoll Hretry Hcommit.
  rewrite registerService_S, Hrun. simpl. rewrite Hempty.
  rewrite bool_decide_eq_true_2 by (rewrite Hcoll; done).
  rewrite bool_decide_eq_true_2 by done. rewrite Hretry.
  rewrite handleCollision_unfold in Hretry.
  apply registerService_true in Hretry as (_ & _ & Ht).
  unfold commitService.
  destruct (avahi_entry_group_commit (world c2) (group c2)) as [w' e'] eqn:Hc.
  simpl in Hcommit.
  assert (error (set_error e' (set_world w' c2)) = e') as He by done.
  rewrite He, bool_decide_eq_true_2 by done.
  eexists. split; [done|]. split; [|done].
  change (timer (set_error e' (set_world w' c2))) with (timer c2). by rewrite Ht.
Qed.

(** X10.  [resetService] leaves the recorded error and the group handle as
    they are, so [isValid] answers after it what it answered before; the
    cached state and both copies of the values stay too. *)
Theorem resetService_keeps_isValid silent c :
  isValid (resetService silent c) = isValid c /\
  state (resetService silent c) = state c /\
  cachedValues (resetService silent c) = cachedValues c /\
  privateValues (resetService silent c) = privateValues c.
Proof.
  destruct (resetService_frame silent c) as (Hfix & Hm & Hd & Hg & He).
  split_and!; try done.
  - unfold isValid. by rewrite Hg, He.
  - unfold fixedPart in Hfix. by injection Hfix as Hst _ _ _.
Qed.

(** X12.  The timeout of the timer after an [updateTxtRecord] registers
    again with the metadata of the update: when the client runs, both
    [m_txtRecords] and [txtRecords] hold it afterwards. *)
Theorem timeout_after_updateTxtRecord fuel x c g r c2 :
  group c = Some g ->
  remaining (timer c) = Some r ->
  clientRunning (resetService true (with_timer QTimer_fired (updateTxtRecord x c).2))
    = true ->
  deliver fuel Timeout (updateTxtRecord x c).2 = Some c2 ->
  txtRecords c2 = x /\ m_txtRecords (self c2) = x.
Proof.
  intros Hg Hr Hrun. simpl.
  destruct (updateTxtRecord_frame x c) as (_ & _ & _ & Ht). rewrite Ht, Hr.
  unfold onReregisterTimeout.
  destruct (resetService_frame true (with_timer QTimer_fired (updateTxtRecord x c).2))
    as (_ & Hm & _).
  unfold cachedValues in Hm. injection Hm as _ _ _ _ Hx.
  change (m_txtRecords (self (with_timer QTimer_fired (updateTxtRecord x c).2)))
    with (m_txtRecords (self (updateTxtRecord x c).2)) in Hx.
  rewrite updateTxtRecord_cached in Hx by (rewrite Hg; done).
  rewrite Hx.
  destruct (registerService _ _ _ _ _ _ _ _) as [[b c3]|] eqn:Hreg; [|done].
  intros [= <-].
  destruct (registerService_values _ _ _ _ _ _ _ _ _ _ Hrun Hreg) as (k & Hm' & Hd').
  unfold cachedValues in Hm'. unfold privateValues in Hd'.
  injection Hm' as _ _ _ _ ->. by injection Hd' as _ _ _ _ ->.
Qed.


(** X14.  A register on an object whose group is not empty returns false
    and writes nothing but the two copies of the values: the outside world,
    the group handle, the recorded error, the TXT list and the timer are
    those from before the call. *)
Theorem registerService_already_registered fuel n h p t x silent c g :
  clientRunning c = true ->
  group c = Some g ->
  avahi_entry_group_is_empty (world c) (Some g) = false ->
  exists c',
    registerService (S fuel) n h p t x silent c = Some (false, c') /\
    world c' = world c /\ group c' = Some g /\ error c' = error c /\
    serviceList c' = serviceList c /\ timer c' = timer c /\
    cachedValues c' = (n, h, p, t, x) /\ privateValues c' = (n, h, p, t, x).
Proof.
  intros Hrun Hg Hempty.
  assert (cacheValues n h p t x c
          = set_d_descriptor n h p t x (set_m_descriptor n h p t x c)) as Hcache.
  { unfold cacheValues, createGroupIfUnset.
    change (group (set_d_descriptor n h p t x (set_m_descriptor n h p t x c)))
      with (group c). by rewrite Hg. }
  rewrite registerService_S, Hrun, Hcache. simpl negb. cbv zeta.
  change (world (set_d_descriptor n h p t x (set_m_descriptor n h p t x c)))
    with (world c).
  change (group (set_d_descriptor n h p t x (set_m_descriptor n h p t x c)))
    with (group c).
  rewrite Hg, Hempty. eexists. split; [done|].
  by split_and!.
Qed.

End Extras.

(** * The further properties on the small host and daemon *)

Lemma Sim_group_new_nonnull (w : Sim.Daemon) (cl : option AvahiClient) :
  (Sim.groupNew w cl).2 <> None.
Proof. discriminate. Qed.

Lemma option_eta {A : Type} (o : option A) (d : A) :
  match o with Some _ => true | None => false end = true ->
  o = Some (match o with Some a => a | None => d end).
Proof. by destruct o. Qed.

Lemma Sim_bind_not_wildcard : Sim.bind <> Sim.parseIPv4 "0.0.0.0".
Proof. vm_compute. discriminate. Qed.

Lemma Sim_deliver_register_twice :
  deliver 1 (CallRegister (P := Sim.platform) "printer2" Sim.bind 9100 "_ipp._tcp"
               Sim.office) Sim.registered
  = Some Sim.rejected.
Proof.
  change (snd <$> registerService 1 "printer2" Sim.bind 9100 "_ipp._tcp" Sim.office
                    false Sim.registered = Some Sim.rejected).
  by rewrite Sim_register_twice.
Qed.

Lemma Sim_registered_group : group Sim.registered = Some (GroupAt 1).
Proof. vm_compute. reflexivity. Qed.

Lemma Sim_registered_valuesAgree : valuesAgree Sim.registered.
Proof. unfold valuesAgree. split_and!; vm_compute; reflexivity. Qed.

Lemma Sim_collision_retry :
  handleCollision 1
    (addService Sim.bind Sim.office
       (cacheValues "printer" Sim.bind 9100 "_ipp._tcp" Sim.office Sim.contender))
  = Some (true, Run.renamed).
Proof.
  refine (option_pair_eta
            (handleCollision 1
               (addService Sim.bind Sim.office
                  (cacheValues "printer" Sim.bind 9100 "_ipp._tcp" Sim.office
                     Sim.contender))) true Sim.contender _).
  vm_compute. reflexivity.
Qed.

Lemma Sim_refresh_after_update :
  deliver 1 Timeout (updateTxtRecord Sim.lab Sim.registered).2 = Some Run.refreshed.
Proof.
  refine (option_eta
            (deliver 1 Timeout (updateTxtRecord Sim.lab Sim.registered).2)
            Sim.registered _).
  vm_compute. reflexivity.
Qed.

(** X1 at the bind address on the host with two interfaces on its subnet. *)
Lemma resolveIfIndex_last_match_witness :
  resolveIfIndex Sim.host Sim.bind
    = firstMatchingIndex Sim.bind (rev (allInterfaces Sim.host)).
Proof.
  exact (proj1 (resolveIfIndex_last_match (P := Sim.platform) Sim.host Sim.bind
                  Sim_bind_not_wildcard)).
Defined.

(** X2 at the bind address on the host whose interfaces are on different
    subnets. *)
Lemma resolveIfIndex_first_when_unique_witness :
  resolveIfIndex Sim.routed Sim.bind = specIfIndex Sim.routed Sim.bind.
Proof.
  apply (resolveIfIndex_first_when_unique (P := Sim.platform) Sim.routed Sim.bind).
  intros i j Hi Hj Hmi Hmj.
  change (In i [Sim.lo; Sim.eth0]) in Hi. change (In j [Sim.lo; Sim.eth0]) in Hj.
  destruct Hi as [<-|[<-|[]]]; destruct Hj as [<-|[<-|[]]]; try reflexivity.
  - vm_compute in Hmi. discriminate Hmi.
  - vm_compute in Hmj. discriminate Hmj.
Defined.

(** X3 at the second register of the registered service. *)
Lemma deliver_keeps_group_witness :
  group Sim.rejected = Some (GroupAt 1).
Proof.
  exact (deliver_keeps_group (P := Sim.platform) 1
           (CallRegister (P := Sim.platform) "printer2" Sim.bind 9100 "_ipp._tcp" Sim.office)
           Sim.registered Sim.rejected
           (GroupAt 1) Sim_registered_group Sim_deliver_register_twice).
Defined.

(** X4 at the second register of the registered service. *)
Lemma deliver_keeps_state_witness :
  state Sim.rejected = state Sim.registered.
Proof.
  apply (deliver_keeps_state (P := Sim.platform) 1
           (CallRegister (P := Sim.platform) "printer2" Sim.bind 9100 "_ipp._tcp" Sim.office)
           Sim.registered Sim.rejected);
    [|exact Sim_deliver_register_twice].
  intros st. discriminate.
Defined.

(** X5 at the second register of the registered service. *)
Lemma deliver_keeps_valuesAgree_witness :
  valuesAgree Sim.registered /\ valuesAgree Sim.rejected.
Proof.
  split; [exact Sim_registered_valuesAgree|].
  exact (deliver_keeps_valuesAgree (P := Sim.platform) 1
           (CallRegister (P := Sim.platform) "printer2" Sim.bind 9100 "_ipp._tcp" Sim.office)
           Sim.registered Sim.rejected
           Sim_registered_valuesAgree Sim_deliver_register_twice).
Defined.

(** X6 at the first register of a new object. *)
Lemma registerService_true_isValid_witness :
  isValid Sim.registered = true.
Proof.
  destruct (registerService_true_isValid (P := Sim.platform) 1 "printer" Sim.bind 9100
              "_ipp._tcp" Sim.office false Sim.fresh Sim.registered
              Sim_group_new_nonnull Sim_register_fresh) as (_ & _ & Hvalid).
  exact Hvalid.
Defined.

(** X7 at the registered service. *)
Lemma resetService_stops_timer_witness :
  isActive (timer (resetService false Sim.registered)) = false.
Proof.
  exact (proj2 (resetService_stops_timer (P := Sim.platform) (Some (ClientAt 1))
                  Sim.host Sim.registered false
                  Sim_group_new_nonnull Sim_registered_reachable)).
Defined.

(** X8 at the update of the registered service. *)
Lemma updateTxtRecord_writes_witness :
  group Sim.registered <> None /\
  m_txtRecords (self (updateTxtRecord Sim.lab Sim.registered).2) = Sim.lab.
Proof.
  assert (group Sim.registered <> None) as Hg.
  { rewrite Sim_registered_group. discriminate. }
  split; [exact Hg|].
  destruct (updateTxtRecord_writes (P := Sim.platform) Sim.lab Sim.registered)
    as (_ & _ & _ & _ & Hm & _).
  exact (Hm Hg).
Defined.

(** X9 at the first register on the crowded host. *)
Lemma registerService_false_after_retry_witness :
  exists c',
    registerService 2 "printer" Sim.bind 9100 "_ipp._tcp" Sim.office false Sim.contender
      = Some (false, c') /\
    isActive (timer c') = true /\
    world c' = (avahi_entry_group_commit (world Run.renamed) (group Run.renamed)).1.
Proof.
  apply (registerService_false_after_retry (P := Sim.platform) 1 "printer" Sim.bind 9100
           "_ipp._tcp" Sim.office false Sim.contender Run.renamed).
  - vm_compute. reflexivity.
  - vm_compute. reflexivity.
  - vm_compute. reflexivity.
  - exact Sim_collision_retry.
  - vm_compute. discriminate.
Defined.

(** X11 at a name of characters from 1 to 127. *)
Lemma toStdString_QLatin1String_roundtrip_witness :
  isAsciiCString "printer" = true /\
  QLatin1String (Some (data (toStdString "printer"))) = "printer".
Proof.
  assert (isAsciiCString "printer" = true) as Hp by reflexivity.
  split; [exact Hp|].
  exact (proj2 (proj2 (toStdString_QLatin1String_roundtrip "printer")) Hp).
Defined.

(** X12 at the update of the registered service. *)
Lemma timeout_after_updateTxtRecord_witness :
  txtRecords Run.refreshed = Sim.lab /\ m_txtRecords (self Run.refreshed) = Sim.lab.
Proof.
  apply (timeout_after_updateTxtRecord (P := Sim.platform) 1 Sim.lab Sim.registered
           (GroupAt 1) 60000 Run.refreshed).
  - exact Sim_registered_group.
  - vm_compute. reflexivity.
  - vm_compute. reflexivity.
  - exact Sim_refresh_after_update.
Defined.


(** X14 at the second register of the registered service. *)
Lemma registerService_already_registered_witness :
  exists c',
    registerService 1 "printer2" Sim.bind 9100 "_ipp._tcp" Sim.office false
      Sim.registered = Some (false, c') /\
    world c' = world Sim.registered.
Proof.
  destruct (registerService_already_registered (P := Sim.platform) 0 "printer2" Sim.bind
              9100 "_ipp._tcp" Sim.office false Sim.registered (GroupAt 1))
    as (c' & Hreg & Hw & _).
  - vm_compute. reflexivity.
  - exact Sim_registered_group.
  - vm_compute. reflexivity.
  - exists c'. split; [exact Hreg | exact Hw].
Defined.
